(** * JWT customizer library of Logto core: deployment merge and local sandbox run

    A shallow embedding of [packages/core/src/libraries/jwt-customizer.ts]:
    the deployment-document merge of [deployJwtCustomizerScript] and
    [undeployJwtCustomizerScript], and the control flow and error mapping of
    [runScriptInLocalVm]. *)

From Stdlib Require Import ZArith.
From stdpp Require Import gmap strings pretty list.

Set Warnings "-register-all".

(** ** JavaScript values

    Objects are property lists in insertion order, as [Object.keys] sees
    them. Numbers are restricted to integers: no claim looks at a number. *)

Inductive value : Type :=
| VUndefined
| VNull
| VBoolean (b : bool)
| VNumber (n : Z)
| VString (s : string)
| VArray (items : list value)
| VObject (props : list (string * value))
| VFunction (source : string).

Abbreviation properties := (list (string * value)).

(** [object[key]] on own properties. *)
Fixpoint get (key : string) (props : properties) : option value :=
  match props with
  | [] => None
  | (k, v) :: rest => if String.eqb k key then Some v else get key rest
  end.

(** [object[key] = v]: an existing property keeps its place, a new one is
    appended. *)
Fixpoint set (key : string) (v : value) (props : properties) : properties :=
  match props with
  | [] => [(key, v)]
  | (k, w) :: rest =>
      if String.eqb k key then (k, v) :: rest else (k, w) :: set key v rest
  end.

Definition hasOwn (key : string) (props : properties) : bool :=
  match get key props with Some _ => true | None => false end.

Definition keys (props : properties) : list string := props.*1.

Definition isArray (v : value) : bool :=
  match v with VArray _ => true | _ => false end.

(** ** The [deepmerge] package (default options), as both merge calls use it *)
Module Deepmerge.

(** Names every plain object inherits from [Object.prototype]. *)
Definition objectPrototypeProps : list string :=
  [ "constructor"; "__defineGetter__"; "__defineSetter__"; "hasOwnProperty";
    "__lookupGetter__"; "__lookupSetter__"; "isPrototypeOf";
    "propertyIsEnumerable"; "toString"; "valueOf"; "__proto__";
    "toLocaleString" ].

(** Names every function inherits or owns without enumerating them. *)
Definition functionProps : list string :=
  [ "length"; "name"; "arguments"; "caller"; "prototype"; "apply"; "bind";
    "call" ] ++ objectPrototypeProps.

Definition elemb (key : string) (names : list string) : bool :=
  existsb (String.eqb key) names.

(** [isMergeableObject]: a non-null object (arrays included) that is not a
    RegExp, a Date or a React element, none of which [value] has. *)
Definition isMergeableObject (v : value) : bool :=
  match v with
  | VArray _ | VObject _ => true
  | _ => false
  end.

(** [propertyIsOnObject]: [key in object], false when [in] throws on a
    primitive. Array indices are not needed: an array is never the target
    of [mergeObject]. *)
Definition propertyIsOnObject (object : value) (key : string) : bool :=
  match object with
  | VObject props => hasOwn key props || elemb key objectPrototypeProps
  | VFunction _ => elemb key functionProps
  | VArray _ => elemb key ("length" :: objectPrototypeProps)
  | _ => false
  end.

Definition ownEnumerable (object : value) (key : string) : bool :=
  match object with
  | VObject props => hasOwn key props
  | _ => false
  end.

(** [propertyIsUnsafe]: on the target, but not as an own enumerable
    property. *)
Definition propertyIsUnsafe (target : value) (key : string) : bool :=
  propertyIsOnObject target key && negb (ownEnumerable target key).

(** [target[key]] for any target. *)
Definition member (target : value) (key : string) : value :=
  match target with
  | VObject props => default VUndefined (get key props)
  | _ => VUndefined
  end.

(** [cloneUnlessOtherwiseSpecified], that is [deepmerge(emptyTarget(v), v)]
    on a mergeable [v]: [mergeObject({}, v)] on an object, where every key
    is new in the empty target unless [Object.prototype] has it, and
    [[].concat(v).map(clone)] on an array. *)
Fixpoint cloneUnlessOtherwiseSpecified (v : value) : value :=
  match v with
  | VArray items => VArray (map cloneUnlessOtherwiseSpecified items)
  | VObject props =>
      VObject
        (fold_left
           (fun destination '(key, w) =>
              if propertyIsUnsafe (VObject []) key then destination
              else set key (cloneUnlessOtherwiseSpecified w) destination)
           props [])
  | _ => v
  end.

(** The first loop of [mergeObject]: copy the target's own properties. *)
Definition cloneTarget (target : value) : properties :=
  match target with
  | VObject props =>
      fold_left
        (fun destination key =>
           set key (cloneUnlessOtherwiseSpecified (member target key))
             destination)
        (keys props) []
  | _ => []
  end.

(** [deepmerge(target, source)]. The recursion is the one of [mergeObject]
    on the source's properties. Both call sites pass an object literal as
    source; a primitive source is given no own keys here. *)
Fixpoint deepmerge (target source : value) {struct source} : value :=
  match source with
  | VArray sourceItems =>
      match target with
      | VArray targetItems =>
          VArray (map cloneUnlessOtherwiseSpecified (targetItems ++ sourceItems))
      | _ => cloneUnlessOtherwiseSpecified source
      end
  | VObject sourceProps =>
      if isArray target then cloneUnlessOtherwiseSpecified source
      else
        VObject
          (fold_left
             (fun destination '(key, w) =>
                if propertyIsUnsafe target key then destination
                else if propertyIsOnObject target key && isMergeableObject w
                then set key (deepmerge (member target key) w) destination
                else set key (cloneUnlessOtherwiseSpecified w) destination)
             sourceProps (cloneTarget target))
  | _ =>
      if isArray target then source else VObject (cloneTarget target)
  end.

End Deepmerge.

Import Deepmerge.

(** ** Deployment of customizer scripts to the cloud worker *)

(** Modelled from the spec: the enum [LogtoJwtTokenKey] of [@logto/schemas]
    is not among the sources. One value per supported token type, used as a
    mapping key; the key strings are the enum's values. *)
Inductive LogtoJwtTokenKey : Type :=
| AccessToken
| ClientCredentials.

Definition tokenKeyName (key : LogtoJwtTokenKey) : string :=
  match key with
  | AccessToken => "jwt.accessToken"
  | ClientCredentials => "jwt.clientCredentials"
  end.

#[global] Instance LogtoJwtTokenKey_eq_dec : EqDecision LogtoJwtTokenKey.
Proof. solve_decision. Defined.

#[global] Instance LogtoJwtTokenKey_countable : Countable LogtoJwtTokenKey.
Proof.
  refine (inj_countable'
            (fun key => match key with AccessToken => false | ClientCredentials => true end)
            (fun b => if b then ClientCredentials else AccessToken) _).
  by intros [].
Defined.

(** [payload.useCase : 'test' | 'production']. *)
Inductive UseCase : Type :=
| Test
| Production.

Definition useCaseName (useCase : UseCase) : string :=
  match useCase with
  | Test => "test"
  | Production => "production"
  end.

#[global] Instance UseCase_eq_dec : EqDecision UseCase.
Proof. solve_decision. Defined.

(** [JwtCustomizerType[T]], of which the library reads [script] only. *)
Record JwtCustomizer : Type := {
  script : string;
  environmentVariables : list (string * string)
}.

(** What [getJwtCustomizers] returns: the configured customizers by key. *)
Abbreviation JwtCustomizers := (gmap LogtoJwtTokenKey JwtCustomizer).

Record RequestError : Type := {
  code : string;
  key : LogtoJwtTokenKey
}.

(** Calls on the cloud client, all to [/api/services/custom-jwt/worker]. *)
Inductive WorkerRequest : Type :=
| Put (body : value)
| Delete.

(** How a deployment function ends: it returns early outside the cloud, an
    assertion throws, or one request goes to the worker service. *)
Inductive Deployment : Type :=
| NotCloud
| Rejects (error : RequestError)
| Sends (request : WorkerRequest).

(** [{ [payload.key]: { [payload.useCase]: payload.value.script } }] *)
Definition deployPatch (key : LogtoJwtTokenKey) (useCase : UseCase)
    (customizer : JwtCustomizer) : value :=
  VObject [(tokenKeyName key, VObject [(useCaseName useCase, VString (script customizer))])].

(** [{ [key]: { production: undefined, test: undefined } }] *)
Definition undeployPatch (key : LogtoJwtTokenKey) : value :=
  VObject [(tokenKeyName key, VObject [("production", VUndefined); ("test", VUndefined)])].

Section Deploy.

(** [EnvSet.values.isCloud] *)
Variable isCloud : bool.

(** [getJwtCustomizerScripts] of [#src/utils/custom-jwt] is not among the
    sources: the functions below work for any such helper. *)
Variable getJwtCustomizerScripts : JwtCustomizers -> value.

Definition deployJwtCustomizerScript (jwtCustomizers : JwtCustomizers)
    (key : LogtoJwtTokenKey) (value : JwtCustomizer) (useCase : UseCase)
    : Deployment :=
  if negb isCloud then NotCloud
  else
    let customizerScriptsFromDatabase := getJwtCustomizerScripts jwtCustomizers in
    let newCustomizerScripts := deployPatch key useCase value in
    Sends (Put (deepmerge customizerScriptsFromDatabase newCustomizerScripts)).

Definition undeployJwtCustomizerScript (jwtCustomizers : JwtCustomizers)
    (key : LogtoJwtTokenKey) : Deployment :=
  if negb isCloud then NotCloud
  else
    match jwtCustomizers !! key with
    | None => Rejects {| code := "entity.not_exists"; key := key |}
    | Some _ =>
        if Nat.eqb (size jwtCustomizers) 1 then Sends Delete
        else
          let customizerScriptsFromDatabase := getJwtCustomizerScripts jwtCustomizers in
          let newCustomizerScripts := undeployPatch key in
          Sends (Put (deepmerge customizerScriptsFromDatabase newCustomizerScripts))
    end.

End Deploy.

(** Modelled from the spec: [getJwtCustomizerScripts] is not among the
    sources. The deployment document maps each configured token key to its
    production script, and holds no entry for a key that is not configured. *)
Definition storedScripts (jwtCustomizers : JwtCustomizers) : value :=
  VObject
    (omap
       (fun key =>
          customizer ← jwtCustomizers !! key;
          Some (tokenKeyName key, VObject [("production", VString (script customizer))]))
       [AccessToken; ClientCredentials]).

(** *** Reading a deployment document *)

(** The entry of a token key. *)
Definition entryOf (document : value) (key : string) : option value :=
  match document with
  | VObject props => get key props
  | _ => None
  end.

(** The slot [document[key][useCase]]; [None] when the property is not
    there, [Some VUndefined] when it is there and holds [undefined]. *)
Definition slotOf (document : value) (key : LogtoJwtTokenKey) (useCase : UseCase)
    : option value :=
  match entryOf document (tokenKeyName key) with
  | Some (VObject entry) => get (useCaseName useCase) entry
  | _ => None
  end.

(** A slot is empty when it holds no script. *)
Definition emptySlot (slot : option value) : bool :=
  match slot with
  | None | Some VUndefined => true
  | Some _ => false
  end.

Definition nodupb (names : list string) : bool := bool_decide (NoDup names).

(** [{ production?: string; test?: string }] *)
Definition isScriptsEntry (v : value) : bool :=
  match v with
  | VObject entry =>
      nodupb (keys entry)
      && forallb
           (fun '(name, w) =>
              elemb name ["production"; "test"]
              && match w with VString _ | VUndefined => true | _ => false end)
           entry
  | _ => false
  end.

(** [CustomJwtDeployRequestBody]: token keys to script entries. *)
Definition isDeploymentDocument (v : value) : bool :=
  match v with
  | VObject props =>
      nodupb (keys props)
      && forallb
           (fun '(name, w) =>
              elemb name (map tokenKeyName [AccessToken; ClientCredentials])
              && isScriptsEntry w)
           props
  | _ => false
  end.

Definition twoCustomizers : JwtCustomizers :=
  <[AccessToken := {| script := "function getCustomJwtClaims(){return {role:'admin'}}";
                      environmentVariables := [] |}]>
    (<[ClientCredentials := {| script := "function getCustomJwtClaims(){return {tier:'gold'}}";
                               environmentVariables := [] |}]> ∅).

(** ** Running a script in the local vm *)

(** Modelled from the spec: the enum [LogtoJwtTokenKeyType] of
    [@logto/schemas] is not among the sources. The access-token type is the
    one token type whose payload carries the user context. *)
Module LogtoJwtTokenKeyType.
Inductive t : Type :=
| AccessToken
| ClientCredentials.

Definition eqb (a b : t) : bool :=
  match a, b with
  | AccessToken, AccessToken | ClientCredentials, ClientCredentials => true
  | _, _ => false
  end.

Definition name (tokenType : t) : string :=
  match tokenType with
  | AccessToken => "access-token"
  | ClientCredentials => "client-credentials"
  end.
End LogtoJwtTokenKeyType.

(** [data: CustomJwtFetcher]. The type gives [context] to the access-token
    variant only and makes [environmentVariables] optional; an object of
    either variant may still carry both at run time. *)
Module CustomJwtFetcher.
Record t : Type := {
  script : string;
  tokenType : LogtoJwtTokenKeyType.t;
  token : value;
  context : option value;
  environmentVariables : option value
}.

Definition optional (name : string) (field : option value) : properties :=
  match field with
  | Some v => [(name, v)]
  | None => []
  end.

(** The object itself, property by property. *)
Definition props (data : t) : properties :=
  [ ("script", VString (script data));
    ("tokenType", VString (LogtoJwtTokenKeyType.name (tokenType data)));
    ("token", token data) ]
  ++ optional "context" (context data)
  ++ optional "environmentVariables" (environmentVariables data).
End CustomJwtFetcher.

(** [pick] of [@silverhand/essentials],
    [Object.fromEntries(keys.map((key) => [key, object[key]]))]: every
    listed key, with [undefined] for one that [object] lacks. *)
Definition pick (object : properties) (names : list string) : properties :=
  fold_left
    (fun picked name => set name (default VUndefined (get name object)) picked)
    names [].

(** *** Errors *)

Inductive ErrorClass : Type :=
| Error
| SyntaxError
| TypeError
| ReferenceError
| RangeError.

(** An error object belongs to the realm that made it: the host's, or the
    one of a vm context. [instanceof] against a host constructor holds for
    host errors only; [types.isNativeError] holds for both. *)
Inductive Realm : Type :=
| Host
| VmContext.

Record NativeError : Type := {
  realm : Realm;
  class : ErrorClass;
  message : string;
  stack : option string
}.

(** What a script or the vm can throw: an error object or any other value. *)
Inductive Exception : Type :=
| ThrowsError (error : NativeError)
| ThrowsValue (v : value).

Record ZodIssue : Type := {
  issueCode : string;
  expected : string;
  received : string;
  path : list string;
  issueMessage : string
}.

(** What the [catch] clause can receive: zod runs on the host only, so a
    [ZodError] never comes out of a script. *)
Inductive Caught : Type :=
| ZodError (errors : list ZodIssue)
| Thrown (exception : Exception).

(** [error instanceof SyntaxError] and [error instanceof TypeError], for an
    error that is not a [ZodError]. *)
Definition instanceOf (cls : ErrorClass) (error : Exception) : bool :=
  match error with
  | ThrowsError e =>
      match realm e, class e, cls with
      | Host, SyntaxError, SyntaxError | Host, TypeError, TypeError => true
      | _, _, _ => false
      end
  | ThrowsValue _ => false
  end.

(** *** [String(number)] on the integers *)

(** The double nearest to an integer, ties to the even significand. *)
Definition roundToDouble (n : Z) : Z :=
  let magnitude := Z.abs n in
  if (magnitude <? 2 ^ 53)%Z then n
  else
    let shift := (Z.log2 magnitude - 52)%Z in
    let significand := Z.shiftr magnitude shift in
    let rest := (magnitude - Z.shiftl significand shift)%Z in
    let half := Z.shiftl 1 (shift - 1) in
    let rounded :=
      if (half <? rest)%Z || ((rest =? half)%Z && Z.odd significand)
      then (significand + 1)%Z else significand in
    (Z.sgn n * Z.shiftl rounded shift)%Z.

(** The shortest decimal that reads back as the double [x], for [x] a
    positive integer of [digits] digits: the first [k] digits of [x], or
    one more in the last place, then zeros; of two that fit, the one nearer
    to [x], and of two as near the even one. *)
Fixpoint shortestDecimal (fuel k digits : nat) (x : Z) : Z :=
  match fuel with
  | O => x
  | S fuel' =>
      let unit := (10 ^ Z.of_nat (digits - k))%Z in
      let low := (x / unit * unit)%Z in
      let high := (low + unit)%Z in
      let fitsLow := (roundToDouble low =? x)%Z in
      let fitsHigh := (roundToDouble high =? x)%Z in
      if fitsLow && fitsHigh then
        if (x - low <? high - x)%Z then low
        else if (high - x <? x - low)%Z then high
        else if Z.even (x / unit) then low else high
      else if fitsLow then low
      else if fitsHigh then high
      else shortestDecimal fuel' (S k) digits x
  end.

Fixpoint dropZeros (reversed : list Ascii.ascii) : list Ascii.ascii :=
  match reversed with
  | c :: rest => if Ascii.eqb c (Ascii.ascii_of_nat 48) then dropZeros rest else reversed
  | [] => []
  end.

(** [Number::toString] on a positive integer: in full up to 21 digits,
    with an exponent from there on. *)
Definition positiveToString (x : Z) : string :=
  let digits := String.length (pretty x) in
  let decimal := pretty (shortestDecimal digits 1 digits x) in
  let length := String.length decimal in
  if (length <=? 21)%nat then decimal
  else
    match rev (dropZeros (rev (String.list_ascii_of_string decimal))) with
    | [] => decimal
    | [first] =>
        String first "" +:+ "e+" +:+ pretty (length - 1)%nat
    | first :: more =>
        String first "" +:+ "." +:+ String.string_of_list_ascii more
        +:+ "e+" +:+ pretty (length - 1)%nat
    end.

Definition numberToString (n : Z) : string :=
  let x := roundToDouble n in
  if (Z.abs x >=? 2 ^ 1024)%Z then (if (x <? 0)%Z then "-Infinity" else "Infinity")
  else if (x =? 0)%Z then "0"
  else if (x <? 0)%Z then "-" +:+ positiveToString (- x)
  else positiveToString x.

(** [String(value)] with the built-in conversions; [VNumber n] is the
    double nearest to [n]. *)
Fixpoint String_ (v : value) : string :=
  match v with
  | VUndefined => "undefined"
  | VNull => "null"
  | VBoolean b => if b then "true" else "false"
  | VNumber n => numberToString n
  | VString s => s
  | VArray items =>
      String.concat ","
        (map (fun item =>
                match item with
                | VUndefined | VNull => ""
                | _ => String_ item
                end) items)
  | VObject _ => "[object Object]"
  | VFunction source => source
  end.

Definition typeof (v : value) : string :=
  match v with
  | VUndefined => "undefined"
  | VNull | VArray _ | VObject _ => "object"
  | VBoolean _ => "boolean"
  | VNumber _ => "number"
  | VString _ => "string"
  | VFunction _ => "function"
  end.

Definition optionalString (field : option string) : value :=
  match field with
  | Some s => VString s
  | None => VUndefined
  end.

(** [buildErrorResponse], which the [catch] clause calls on what is not a
    [ZodError]: [types.isNativeError] holds for the error objects of either
    realm. *)
Definition buildErrorResponse (error : Exception) : value :=
  match error with
  | ThrowsError e =>
      VObject [("message", VString (message e)); ("stack", optionalString (stack e))]
  | ThrowsValue v => VObject [("message", VString (String_ v))]
  end.

(** *** The result check [z.record(z.unknown()).parse(result)] *)

(** zod's [getParsedType] on the values at hand. *)
Definition getParsedType (v : value) : string :=
  match v with
  | VNull => "null"
  | VArray _ => "array"
  | _ => typeof v
  end.

Definition invalidType (v : value) : ZodIssue :=
  {| issueCode := "invalid_type";
     expected := "object";
     received := getParsedType v;
     path := [];
     issueMessage :=
       match v with
       | VUndefined => "Required"
       | _ => "Expected object, received " +:+ getParsedType v
       end |}.

Definition parseRecord (result : value) : Caught + properties :=
  match result with
  | VObject claims => inr claims
  | _ => inl (ZodError [invalidType result])
  end.

Definition issueValue (issue : ZodIssue) : value :=
  VObject [ ("code", VString (issueCode issue));
            ("expected", VString (expected issue));
            ("received", VString (received issue));
            ("path", VArray (map VString (path issue)));
            ("message", VString (issueMessage issue)) ].

(** *** The response thrown to the caller *)

(** [new ResponseError(new Response(new Blob([JSON.stringify(body)]), { status }))].
    [body] is the object handed to [JSON.stringify], which leaves out a
    property that holds [undefined]. *)
Record ResponseError : Type := {
  status : N;
  body : value
}.

(** The property of the body as the JSON text has it. *)
Definition jsonProperty (name : string) (v : value) : option value :=
  match v with
  | VObject props =>
      match get name props with
      | Some VUndefined | Some (VFunction _) | None => None
      | Some w => Some w
      end
  | _ => None
  end.

(** The [catch] clause of [runScriptInLocalVm]. *)
Definition catchClause (error : Caught) : ResponseError :=
  match error with
  | ZodError errors =>
      {| status := 400;
         body := VObject [ ("message", VString "Invalid input");
                           ("errors", VArray (map issueValue errors)) ] |}
  | Thrown exception =>
      {| status := if instanceOf SyntaxError exception || instanceOf TypeError exception
                   then 422 else 500;
         body := buildErrorResponse exception |}
  end.

(** *** The vm *)

(** An object given to [runInNewContext], with the context that the vm
    makes for it the first time and takes again every time after:
    [globals] are the properties of the object, [scope] the globals that
    scripts have added in that context beside them. *)
Record Sandbox : Type := {
  frozen : bool;
  globals : properties;
  scope : properties
}.

(** [Object.freeze(object)] on a new object, which has no context yet. *)
Definition Object_freeze (object : properties) : Sandbox :=
  {| frozen := true; globals := object; scope := [] |}.

(** What a script can try on the global object it runs against. *)
Inductive GlobalWrite : Type :=
| Assign (name : string) (v : value)
| Remove (name : string).

Definition remove (name : string) (props : properties) : properties :=
  filter (fun '(k, _) => k ≠ name) props.

(** A write on the global object of the context. A property of the object
    is read and written on the object: when the object is frozen it keeps
    its value and stays. Any other global goes to the object when that
    takes it, and when the object is frozen lives in the context alone. *)
Definition applyWrite (sandbox : Sandbox) (write : GlobalWrite) : Sandbox :=
  match write with
  | Assign name v =>
      if frozen sandbox then
        if hasOwn name (globals sandbox) then sandbox
        else {| frozen := true; globals := globals sandbox;
                scope := set name v (scope sandbox) |}
      else {| frozen := false; globals := set name v (globals sandbox);
              scope := scope sandbox |}
  | Remove name =>
      if frozen sandbox then
        if hasOwn name (globals sandbox) then sandbox
        else {| frozen := true; globals := globals sandbox;
                scope := remove name (scope sandbox) |}
      else {| frozen := false; globals := remove name (globals sandbox);
              scope := remove name (scope sandbox) |}
  end.

(** The top-level declarations of a script that has run are globals of the
    context from then on. *)
Definition declare (bindings : properties) (sandbox : Sandbox) : Sandbox :=
  {| frozen := frozen sandbox; globals := globals sandbox;
     scope := fold_left (fun names '(name, v) => set name v names) bindings
                (scope sandbox) |}.

(** The globals that code finds in the context of a sandbox: those of the
    context, then the properties of the object. *)
Definition visibleGlobals (sandbox : Sandbox) : properties :=
  scope sandbox ++ globals sandbox.

Inductive Completion (A : Type) : Type :=
| Normal (result : A)
| Abrupt (exception : Exception).
Arguments Normal {A} result.
Arguments Abrupt {A} exception.

(** One run of code in a context, times in milliseconds: the time its
    synchronous part takes, the time the promise it returns then takes to
    settle (none when it returns no promise), and what the run, or that
    promise once awaited, comes to. *)
Record Execution : Type := {
  elapsed : N;
  pending : N;
  completion : Completion value
}.

(** How the text of a script takes the [';getCustomJwtClaims;'] put after
    it: as the statement that reads the name, or, when the text ends in a
    line comment, as more of the comment, and then the value of the whole
    is the value of the script itself. *)
Inductive Suffix : Type :=
| ReadsEntryPoint
| InComment (completionValue : value).

(** The script body in a context: its running time, the writes it tries on
    the global object, either what it throws (a [SyntaxError] of the
    context when the text with the suffix does not compile) or the bindings
    its top level leaves for a later lookup to find (its [let], [const] and
    [class] declarations, and its [var] and function declarations of names
    that the object does not have), and how its text takes the suffix. *)
Record BodyRun : Type := {
  bodyElapsed : N;
  writes : list GlobalWrite;
  declared : Completion properties;
  suffix : Suffix
}.

(** What V8 makes of a script: the run of its body against a global object,
    and the call of a function it made on an argument. *)
Record ScriptSemantics : Type := {
  runBody : Sandbox → BodyRun;
  callFunction : value → value → Execution
}.

Record VmCall : Type := {
  vmCode : string;
  vmSandbox : Sandbox;
  vmTimeout : option N
}.

(** What one call of [runScriptInLocalVm] comes to: the claims returned or
    the response thrown, the calls made on the vm, and the shared
    [globalContext] object afterwards. *)
Record LocalRun : Type := {
  outcome : ResponseError + properties;
  vmCalls : list VmCall;
  globalContextAfter : Sandbox
}.

Section LocalVm.

(** The engine: what each script text means. *)
Variable v8 : string → ScriptSemantics.

(** The trace an error records where it is made, from its heading line. *)
Variable captureStackTrace : string → string.

Definition className (cls : ErrorClass) : string :=
  match cls with
  | Error => "Error"
  | SyntaxError => "SyntaxError"
  | TypeError => "TypeError"
  | ReferenceError => "ReferenceError"
  | RangeError => "RangeError"
  end.

(** [new cls(message)] on the host. *)
Definition newError (cls : ErrorClass) (text : string) : NativeError :=
  {| realm := Host; class := cls; message := text;
     stack := Some (captureStackTrace (className cls +:+ ": " +:+ text)) |}.

(** The error of the vm when a run outlasts [timeout]. *)
Definition timeoutError (limit : N) : Exception :=
  ThrowsError
    (newError Error ("Script execution timed out after " +:+ pretty limit +:+ "ms")).

(** [runInNewContext(code, sandbox, { timeout })] on a run of the code.
    The vm stops the synchronous part of a run that outlasts [timeout];
    without the option the run goes on for as long as it takes, and so
    does the promise a run has returned. *)
Definition runInNewContext (run : Execution) (timeout : option N)
    : Completion value :=
  match timeout with
  | Some limit =>
      if (limit <? elapsed run)%N then Abrupt (timeoutError limit)
      else completion run
  | None => completion run
  end.

(** The run of [data.script + ';getCustomJwtClaims;'] in the context of the
    sandbox: the script body, whose writes and declarations stay in the
    context, then, unless the suffix is lost in a comment, the value of the
    name, looked up among the globals of the context and then on the
    object. A name that resolves nowhere is a [ReferenceError] of the
    context. *)
Definition evaluateScript (semantics : ScriptSemantics) (sandbox : Sandbox)
    : Execution * Sandbox :=
  let run := runBody semantics sandbox in
  let written := fold_left applyWrite (writes run) sandbox in
  let sandbox' :=
    match declared run with
    | Normal bindings => declare bindings written
    | Abrupt _ => written
    end in
  ({| elapsed := bodyElapsed run;
      pending := 0;
      completion :=
        match declared run, suffix run with
        | Abrupt exception, _ => Abrupt exception
        | Normal _, InComment completionValue => Normal completionValue
        | Normal _, ReadsEntryPoint =>
            match get "getCustomJwtClaims" (visibleGlobals sandbox') with
            | Some v => Normal v
            | None =>
                Abrupt (ThrowsError
                          {| realm := VmContext; class := ReferenceError;
                             message := "getCustomJwtClaims is not defined";
                             stack :=
                               Some (captureStackTrace
                                       "ReferenceError: getCustomJwtClaims is not defined") |})
            end
        end |},
   sandbox').

(** [const payload = ...] *)
Definition payloadOf (data : CustomJwtFetcher.t) : value :=
  if LogtoJwtTokenKeyType.eqb (CustomJwtFetcher.tokenType data)
       LogtoJwtTokenKeyType.AccessToken
  then VObject (pick (CustomJwtFetcher.props data)
                  ["token"; "context"; "environmentVariables"])
  else VObject (pick (CustomJwtFetcher.props data)
                  ["token"; "environmentVariables"]).

(** [new TypeError('The script does not have a function named ...')] *)
Definition notAFunction : Exception :=
  ThrowsError
    (newError TypeError
       "The script does not have a function named `getCustomJwtClaims`").

(** The [try] block, with the calls it makes on the vm. *)
Definition tryBlock (globalContext : Sandbox) (data : CustomJwtFetcher.t)
    : (Caught + properties) * list VmCall * Sandbox :=
  let semantics := v8 (CustomJwtFetcher.script data) in
  let first :=
    {| vmCode := CustomJwtFetcher.script data +:+ ";getCustomJwtClaims;";
       vmSandbox := globalContext; vmTimeout := None |} in
  let '(evaluation, globalContext') := evaluateScript semantics globalContext in
  match runInNewContext evaluation None with
  | Abrupt exception => (inl (Thrown exception), [first], globalContext')
  | Normal getCustomJwtClaims =>
      if negb (String.eqb (typeof getCustomJwtClaims) "function") then
        (inl (Thrown notAFunction), [first], globalContext')
      else
        let payload := payloadOf data in
        let second :=
          {| vmCode := "(async () => getCustomJwtClaims(payload))();";
             vmSandbox :=
               Object_freeze [("getCustomJwtClaims", getCustomJwtClaims);
                              ("payload", payload)];
             vmTimeout := Some 3000%N |} in
        match runInNewContext (callFunction semantics getCustomJwtClaims payload)
                (Some 3000%N) with
        | Abrupt exception =>
            (inl (Thrown exception), [first; second], globalContext')
        | Normal result => (parseRecord result, [first; second], globalContext')
        end
  end.

Definition runScriptInLocalVm (globalContext : Sandbox) (data : CustomJwtFetcher.t)
    : LocalRun :=
  let '(result, calls, globalContext') := tryBlock globalContext data in
  {| outcome :=
       match result with
       | inr parsedResult => inr parsedResult
       | inl error => inl (catchClause error)
       end;
     vmCalls := calls;
     globalContextAfter := globalContext' |}.

End LocalVm.

(** [const globalContext = Object.freeze({ fetch: async (...args) => fetch(...args) })],
    made once for the library and shared by all its runs. *)
Definition globalContext : Sandbox :=
  Object_freeze [("fetch", VFunction "async (...args) => fetch(...args)")].

(** *** Reading a run *)

(** What a run comes to once the call of the entry point is over: the
    result check, and the [catch] clause on what was thrown. *)
Definition settle (completed : Completion value) : ResponseError + properties :=
  match completed with
  | Abrupt exception => inl (catchClause (Thrown exception))
  | Normal result =>
      match parseRecord result with
      | inl error => inl (catchClause error)
      | inr parsedResult => inr parsedResult
      end
  end.

Section Readings.

Variable v8 : string → ScriptSemantics.
Variable captureStackTrace : string → string.
Variable globalContext : Sandbox.
Variable data : CustomJwtFetcher.t.

(** What the entry point returned, when the script has one and its call
    came back in time. *)
Definition entryPointResult : option value :=
  let semantics := v8 (CustomJwtFetcher.script data) in
  match completion (evaluateScript captureStackTrace semantics globalContext).1 with
  | Normal getCustomJwtClaims =>
      if String.eqb (typeof getCustomJwtClaims) "function" then
        match runInNewContext captureStackTrace
                (callFunction semantics getCustomJwtClaims (payloadOf data))
                (Some 3000%N) with
        | Normal result => Some result
        | Abrupt _ => None
        end
      else None
  | Abrupt _ => None
  end.

(** What the [catch] clause received, if anything. *)
Definition caught : option Caught :=
  match (tryBlock v8 captureStackTrace globalContext data).1.1 with
  | inl error => Some error
  | inr _ => None
  end.

(** The time the script takes: the evaluation of its body and, when it
    has a function to call, the call and the promise of the call. *)
Definition timeInVm : N :=
  let semantics := v8 (CustomJwtFetcher.script data) in
  let evaluation := (evaluateScript captureStackTrace semantics globalContext).1 in
  (elapsed evaluation
   + match completion evaluation with
     | Normal getCustomJwtClaims =>
         if String.eqb (typeof getCustomJwtClaims) "function"
         then elapsed (callFunction semantics getCustomJwtClaims (payloadOf data))
              + pending (callFunction semantics getCustomJwtClaims (payloadOf data))
         else 0
     | Abrupt _ => 0
     end)%N.

(** The payloads the vm calls of a run were given. *)
Definition payloadsHandedOver (run : LocalRun) : list value :=
  omap (fun call => get "payload" (globals (vmSandbox call))) (vmCalls run).

End Readings.

Definition isRecord (v : value) : bool :=
  match v with VObject _ => true | _ => false end.


(** The shared [globalContext] with the globals that scripts have left in
    its context. *)
Definition globalContextWith (names : properties) : Sandbox :=
  {| frozen := true; globals := globals globalContext; scope := names |}.


(** The issue of zod on a payload without its [token]. *)
Definition missingToken : ZodIssue :=
  {| issueCode := "invalid_type";
     expected := "object";
     received := "undefined";
     path := ["token"];
     issueMessage := "Required" |}.

(** *** Example scripts, with what V8 makes of each *)

Definition exampleTrace (heading : string) : string :=
  heading +:+ "
    at evalmachine.<anonymous>:1:1".

Definition greetingScript : string :=
  "function getCustomJwtClaims(p){return {greeting: 'hi ' + p.token.sub}}".
Definition stringScript : string :=
  "function getCustomJwtClaims(){return 'admin'}".
Definition throwingScript : string :=
  "function getCustomJwtClaims(){throw new Error('boom')}".
Definition emptyClaims : string :=
  "function getCustomJwtClaims(){return {}}".
Definition slowBodyScript : string :=
  "const t=Date.now();while(Date.now()-t<10000){};function getCustomJwtClaims(){return {}}".
Definition slowFetchScript : string :=
  "async function getCustomJwtClaims(){await fetch('https://example.com/slow');return {}}".
Definition slowCallScript : string :=
  "function getCustomJwtClaims(){const t=Date.now();while(Date.now()-t<5000){};return {}}".
Definition meddlingScript : string :=
  "fetch=null;delete globalThis.fetch;globalThis.leak=1;function getCustomJwtClaims(){return {}}".
Definition noEntryPointScript : string :=
  "const answer = 42".
Definition numberEntryPointScript : string :=
  "const getCustomJwtClaims = 42".
Definition commentedScript : string :=
  "function getCustomJwtClaims(){return {}} // my claims".

(** The call of a function of the examples, by its source text. *)
Definition exampleCall (fn payload : value) : Execution :=
  match fn with
  | VFunction source =>
      if String.eqb source greetingScript then
        {| elapsed := 1;
           pending := 0;
           completion :=
             Normal (VObject [("greeting",
                               VString ("hi " +:+ String_ (member (member payload "token") "sub")))]) |}
      else if String.eqb source stringScript then
        {| elapsed := 1; pending := 0; completion := Normal (VString "admin") |}
      else if String.eqb source throwingScript then
        {| elapsed := 1;
           pending := 0;
           completion :=
             Abrupt (ThrowsError
                       {| realm := VmContext; class := Error; message := "boom";
                          stack := Some (exampleTrace "Error: boom") |}) |}
      else if String.eqb source emptyClaims then
        {| elapsed := 1; pending := 0; completion := Normal (VObject []) |}
      else if String.eqb source slowFetchScript then
        {| elapsed := 1; pending := 10000; completion := Normal (VObject []) |}
      else if String.eqb source slowCallScript then
        {| elapsed := 5000; pending := 0; completion := Normal (VObject []) |}
      else {| elapsed := 0; pending := 0; completion := Normal VUndefined |}
  | _ => {| elapsed := 0; pending := 0; completion := Normal VUndefined |}
  end.

(** A script whose top level declares [bindings] in [bodyTime] ms and tries
    [attempts] on the global object. *)
Definition declares (bodyTime : N) (attempts : list GlobalWrite)
    (bindings : properties) (ending : Suffix) : ScriptSemantics :=
  {| runBody := fun _ =>
       {| bodyElapsed := bodyTime; writes := attempts; declared := Normal bindings;
          suffix := ending |};
     callFunction := exampleCall |}.

(** A text that does not compile: the [SyntaxError] is made in the context. *)
Definition doesNotCompile (text : string) : ScriptSemantics :=
  {| runBody := fun _ =>
       {| bodyElapsed := 0; writes := [];
          declared :=
            Abrupt (ThrowsError
                      {| realm := VmContext; class := SyntaxError; message := text;
                         stack := Some (exampleTrace ("SyntaxError: " +:+ text)) |});
          suffix := ReadsEntryPoint |};
     callFunction := exampleCall |}.

Definition entryPoint (source : string) : properties :=
  [("getCustomJwtClaims", VFunction source)].

Definition exampleEngine (text : string) : ScriptSemantics :=
  if String.eqb text greetingScript || String.eqb text stringScript
     || String.eqb text throwingScript || String.eqb text emptyClaims
     || String.eqb text slowFetchScript || String.eqb text slowCallScript
  then declares 1 [] (entryPoint text) ReadsEntryPoint
  else if String.eqb text slowBodyScript then
    declares 10000 [] (("t", VNumber 0) :: entryPoint emptyClaims) ReadsEntryPoint
  else if String.eqb text meddlingScript then
    declares 1 [Assign "fetch" VNull; Remove "fetch"; Assign "leak" (VNumber 1)]
      (entryPoint emptyClaims) ReadsEntryPoint
  else if String.eqb text noEntryPointScript then
    declares 1 [] [("answer", VNumber 42)] ReadsEntryPoint
  else if String.eqb text numberEntryPointScript then
    declares 1 [] [("getCustomJwtClaims", VNumber 42)] ReadsEntryPoint
  else if String.eqb text commentedScript then
    declares 1 [] (entryPoint emptyClaims) (InComment VUndefined)
  else doesNotCompile "Unexpected token".

(** A client-credentials request that still carries a user context. *)
Definition exampleData (text : string) (tokenType : LogtoJwtTokenKeyType.t)
    : CustomJwtFetcher.t :=
  {| CustomJwtFetcher.script := text;
     CustomJwtFetcher.tokenType := tokenType;
     CustomJwtFetcher.token := VObject [("sub", VString "u1")];
     CustomJwtFetcher.context :=
       Some (VObject [("user", VObject [("id", VString "u1")])]);
     CustomJwtFetcher.environmentVariables :=
       Some (VObject [("API_KEY", VString "secret")]) |}.

Definition exampleRun (text : string) (tokenType : LogtoJwtTokenKeyType.t) : LocalRun :=
  runScriptInLocalVm exampleEngine exampleTrace globalContext (exampleData text tokenType).

(** The document is minimal when each entry it has holds a script. *)
Definition minimalDocument (document : value) : Prop :=
  ∀ key, is_Some (entryOf document (tokenKeyName key)) →
         ∃ useCase, emptySlot (slotOf document key useCase) = false.

Definition oneCustomizer : JwtCustomizers :=
  {[ AccessToken := {| script := "function getCustomJwtClaims(){return {role:'admin'}}";
                       environmentVariables := [] |} ]}.

(** A store whose document has the test script of the access token only. *)
Definition testOnly : JwtCustomizers → value :=
  fun _ =>
    VObject [("jwt.accessToken",
              VObject [("test", VString "function getCustomJwtClaims(){return {role:'admin'}}")])].

(** ** Deployment documents as assignments *)

(** The slots of a token key in a document, none when it has no entry. *)
Definition slotsOf (props : properties) (key : LogtoJwtTokenKey) : properties :=
  match get (tokenKeyName key) props with
  | Some (VObject slots) => slots
  | _ => []
  end.

(** [document[key][useCase] = v], making the entry when it is missing. *)
Definition assignSlot (props : properties) (key : LogtoJwtTokenKey)
    (useCase : UseCase) (v : value) : properties :=
  set (tokenKeyName key) (VObject (set (useCaseName useCase) v (slotsOf props key))) props.

(** [document[key].production = undefined; document[key].test = undefined] *)
Definition blankSlots (props : properties) (key : LogtoJwtTokenKey) : properties :=
  set (tokenKeyName key)
    (VObject (set "test" VUndefined (set "production" VUndefined (slotsOf props key))))
    props.

(** A document with both scripts of the access token and one of the other. *)
Definition fullDocument : value :=
  VObject [ ("jwt.accessToken",
             VObject [ ("production", VString "function getCustomJwtClaims(){return {a:1}}");
                       ("test", VString "function getCustomJwtClaims(){return {a:2}}") ]);
            ("jwt.clientCredentials",
             VObject [ ("production", VString "function getCustomJwtClaims(){return {b:1}}") ]) ].

Definition goldScript : JwtCustomizer :=
  {| script := "function getCustomJwtClaims(){return {tier:'gold'}}";
     environmentVariables := [] |}.

Definition adminScript : JwtCustomizer :=
  {| script := "function getCustomJwtClaims(){return {role:'admin'}}";
     environmentVariables := [] |}.

(** The properties of a document. *)
Definition documentProps (document : value) : properties :=
  match document with
  | VObject props => props
  | _ => []
  end.

(** ** The user context handed to the scripts ([getUserContext]) *)

(** The rows that the queries return, with the columns that [getUserContext]
    reads or keeps. *)
Module Role.
Record t : Type := { id : string; name : string; description : string }.
End Role.

Module RolesScope.
Record t : Type := { roleId : string; scopeId : string }.
End RolesScope.

(** A scope with its resource attached ([attachResourceToScopes]). *)
Module Scope.
Record t : Type := {
  id : string;
  name : string;
  description : value;
  resourceId : string;
  resource : value
}.
End Scope.

Module OrganizationRole.
Record t : Type := { id : string; name : string }.
End OrganizationRole.

Module Organization.
Record t : Type := {
  id : string;
  name : string;
  description : value;
  organizationRoles : list OrganizationRole.t
}.
End Organization.

Module SsoIdentity.
Record t : Type := { issuer : string; identityId : string; detail : value }.
End SsoIdentity.

(** The row of a user: its columns, and the types of [mfaVerifications]. *)
Module User.
Record t : Type := {
  columns : properties;
  mfaVerificationTypes : list string
}.
End User.

(** A role of the context, with the scopes it grants. *)
Module RoleContext.
Record t : Type := {
  id : string;
  name : string;
  description : string;
  scopes : list Scope.t
}.
End RoleContext.

Module OrganizationRoleContext.
Record t : Type := { organizationId : string; roleId : string; roleName : string }.
End OrganizationRoleContext.

Module OrganizationContext.
Record t : Type := { id : string; name : string; description : value }.
End OrganizationContext.

(** The object [userContext]. *)
Record JwtCustomizerUserContext : Type := {
  userInfo : properties;
  ssoIdentities : list SsoIdentity.t;
  mfaVerificationFactors : list string;
  roles : list RoleContext.t;
  organizations : list OrganizationContext.t;
  organizationRoles : list OrganizationRoleContext.t
}.

(** [deduplicate] of [@silverhand/essentials], [[...new Set(array)]]: each
    element once, at the place where it first comes. *)
Definition deduplicate (array : list string) : list string :=
  fold_left (fun seen x => if decide (x ∈ seen) then seen else seen ++ [x]) array [].

Section GetUserContext.

(** The queries and libraries that [createJwtCustomizerLibrary] is given. A
    query that throws gives [None]. *)
Variable findUserById : string → option User.t.
Variable findUserSsoIdentitiesByUserId : string → list SsoIdentity.t.
Variable findUserRoles : string → list Role.t.
Variable findRolesScopesByRoleIds : list string → list RolesScope.t.
Variable findScopesByIds : list string → list Scope.t.
Variable attachResourceToScopes : list Scope.t → list Scope.t.
Variable getOrganizationsByUserId : string → list Organization.t.

(** [userInfoSelectFields] of [@logto/schemas]. *)
Variable userInfoSelectFields : list string.

(** [jwtCustomizerUserContextGuard.parse], which throws on a context that
    does not fit the schema. *)
Variable jwtCustomizerUserContextGuard : JwtCustomizerUserContext → option JwtCustomizerUserContext.

(** [roles.map((role) => ...)]: the scopes of one role. *)
Definition roleContext (rolesScopes : list RolesScope.t)
    (scopesWithResources : list Scope.t) (role : Role.t) : RoleContext.t :=
  let scopeIds :=
    map RolesScope.scopeId
      (filter (fun row => RolesScope.roleId row = Role.id role) rolesScopes) in
  {| RoleContext.id := Role.id role;
     RoleContext.name := Role.name role;
     RoleContext.description := Role.description role;
     RoleContext.scopes :=
       filter (fun scope => Scope.id scope ∈ scopeIds) scopesWithResources |}.

(** [organizationsWithRoles.flatMap(...)] *)
Definition organizationRoleContexts (organizationsWithRoles : list Organization.t)
    : list OrganizationRoleContext.t :=
  mbind
    (fun organization =>
       map (fun role =>
              {| OrganizationRoleContext.organizationId := Organization.id organization;
                 OrganizationRoleContext.roleId := OrganizationRole.id role;
                 OrganizationRoleContext.roleName := OrganizationRole.name role |})
         (Organization.organizationRoles organization))
    organizationsWithRoles.

(** The object [userContext], before the guard. *)
Definition userContextOf (userId : string) (user : User.t) : JwtCustomizerUserContext :=
  let fullSsoIdentities := findUserSsoIdentitiesByUserId userId in
  let roles := findUserRoles userId in
  let rolesScopes := findRolesScopesByRoleIds (map Role.id roles) in
  let scopeIds := map RolesScope.scopeId rolesScopes in
  let scopes := findScopesByIds scopeIds in
  let scopesWithResources := attachResourceToScopes scopes in
  let organizationsWithRoles := getOrganizationsByUserId userId in
  {| userInfo := pick (User.columns user) userInfoSelectFields;
     ssoIdentities := fullSsoIdentities;
     mfaVerificationFactors := deduplicate (User.mfaVerificationTypes user);
     roles := map (roleContext rolesScopes scopesWithResources) roles;
     organizations :=
       map (fun organization =>
              {| OrganizationContext.id := Organization.id organization;
                 OrganizationContext.name := Organization.name organization;
                 OrganizationContext.description := Organization.description organization |})
         organizationsWithRoles;
     organizationRoles := organizationRoleContexts organizationsWithRoles |}.

Definition getUserContext (userId : string) : option JwtCustomizerUserContext :=
  user ← findUserById userId;
  jwtCustomizerUserContextGuard (userContextOf userId user).

End GetUserContext.

(** ** The hook library ([createHookLibrary]) *)

Module Hook.
(** A row of the hooks table. [event] is the column of the first version of
    the hooks, one event or none; [events] came later. *)
Record t : Type := {
  id : string;
  event : option string;
  events : list string;
  enabled : bool;
  config : value;
  signingKey : string
}.
End Hook.

(** The argument of [sendWebhookRequest]. *)
Record WebhookRequest : Type := {
  hookConfig : value;
  requestPayload : properties;
  requestSigningKey : string
}.

(** [{ ...target, ...source }]: the properties of [source] assigned, in
    their order, on a copy of [target]. *)
Definition spread (target source : properties) : properties :=
  fold_left (fun object '(name, v) => set name v object) source target.

(** The requests of [sendWebhooks], one for each hook, in the order of the
    hooks: [{ ...payload, hookId: id }] with the config and the signing key
    of the hook. The log entry written for each request needs the class
    [LogEntry], which is not among the sources. *)
Definition sendWebhooks (hooks : list Hook.t) (payload : properties)
    : list WebhookRequest :=
  map (fun hook =>
         {| hookConfig := Hook.config hook;
            requestPayload := set "hookId" (VString (Hook.id hook)) payload;
            requestSigningKey := Hook.signingKey hook |})
    hooks.

(** The filter of both trigger functions:
    [enabled && (events.length > 0 ? events.includes(hookEvent) : event === hookEvent)] *)
Definition subscribed (hookEvent : string) (hook : Hook.t) : bool :=
  Hook.enabled hook
  && (if (0 <? length (Hook.events hook))%nat
      then existsb (String.eqb hookEvent) (Hook.events hook)
      else match Hook.event hook with
           | Some event => String.eqb event hookEvent
           | None => false
           end).

(** The queries a trigger function makes. *)
Inductive HookQuery : Type :=
| FindAllHooks
| FindUserById (userId : string)
| FindApplicationById (applicationId : string).

(** What a trigger function does: the queries it makes and the requests it
    sends. *)
Record Triggered : Type := {
  queries : list HookQuery;
  requests : list WebhookRequest
}.

Module InteractionHookContext.
Record t : Type := {
  event : string;
  sessionId : option string;
  applicationId : option string;
  userIp : option string
}.
End InteractionHookContext.

(** One context of a [ManagementHookContextManager]. *)
Module ManagementHookContext.
Record t : Type := {
  event : string;
  data : properties
}.
End ManagementHookContext.

Section HookLibrary.

(** The queries of the tenant; a query that throws gives [None]. *)
Variable findAllHooks : list Hook.t.
Variable findUserById : string → option properties.
Variable findApplicationById : string → option properties.
Variable findHookById : string → option Hook.t.

(** [eventToHook] of [./types.js], from an interaction event to the hook
    event, and [userInfoSelectFields] of [@logto/schemas]. *)
Variable eventToHook : string → string.
Variable userInfoSelectFields : list string.

(** [new Date().toISOString()] *)
Variable createdAt : string.

(** [user && pick(user, ...userInfoSelectFields)] on [trySafe(findUserById(userId))] *)
Definition hookUser (userId : string) : value :=
  match findUserById userId with
  | Some user => VObject (pick user userInfoSelectFields)
  | None => VUndefined
  end.

(** [trySafe(async () => conditional(applicationId && (await findApplicationById(applicationId))))]:
    no id, or the empty one, makes no query. *)
Definition applicationQueries (applicationId : option string) : list HookQuery :=
  match applicationId with
  | Some id => if String.eqb id "" then [] else [FindApplicationById id]
  | None => []
  end.

(** [application && pick(application, 'id', 'type', 'name', 'description')] *)
Definition hookApplication (applicationId : option string) : value :=
  match applicationId with
  | Some id =>
      if String.eqb id "" then VUndefined
      else match findApplicationById id with
           | Some application =>
               VObject (pick application ["id"; "type"; "name"; "description"])
           | None => VUndefined
           end
  | None => VUndefined
  end.

(** The payload of [triggerInteractionHooks], with the empty [hookId] that
    it passes to [sendWebhooks]. *)
Definition interactionPayload (interactionContext : InteractionHookContext.t)
    (userId : string) (userAgent : option string) : properties :=
  [ ("event", VString (eventToHook (InteractionHookContext.event interactionContext)));
    ("interactionEvent", VString (InteractionHookContext.event interactionContext));
    ("createdAt", VString createdAt);
    ("sessionId", optionalString (InteractionHookContext.sessionId interactionContext));
    ("userAgent", optionalString userAgent);
    ("userId", VString userId);
    ("userIp", optionalString (InteractionHookContext.userIp interactionContext));
    ("user", hookUser userId);
    ("application", hookApplication (InteractionHookContext.applicationId interactionContext));
    ("hookId", VString "") ].

Definition triggerInteractionHooks (interactionContext : InteractionHookContext.t)
    (userId : string) (userAgent : option string) : Triggered :=
  let hookEvent := eventToHook (InteractionHookContext.event interactionContext) in
  let found := findAllHooks in
  let rows := filter (fun hook => subscribed hookEvent hook = true) found in
  if Nat.eqb (length rows) 0 then {| queries := [FindAllHooks]; requests := [] |}
  else
    {| queries :=
         [FindAllHooks; FindUserById userId]
         ++ applicationQueries (InteractionHookContext.applicationId interactionContext);
       requests :=
         sendWebhooks rows (interactionPayload interactionContext userId userAgent) |}.

(** The payload of [triggerManagementHooks] for one context:
    [{ event, createdAt, ...hooks.metadata, ...data, hookId: '' }] *)
Definition managementPayload (metadata : properties)
    (context : ManagementHookContext.t) : properties :=
  set "hookId" (VString "")
    (spread
       (spread [ ("event", VString (ManagementHookContext.event context));
                 ("createdAt", VString createdAt) ]
          metadata)
       (ManagementHookContext.data context)).

(** [triggerManagementHooks(hooks)], on [hooks.metadata] and
    [hooks.contextArray]. *)
Definition triggerManagementHooks (metadata : properties)
    (contextArray : list ManagementHookContext.t) : Triggered :=
  if Nat.eqb (length contextArray) 0 then {| queries := []; requests := [] |}
  else
    let found := findAllHooks in
    {| queries := [FindAllHooks];
       requests :=
         mbind
           (fun context =>
              let rows :=
                filter
                  (fun hook => subscribed (ManagementHookContext.event context) hook = true)
                  found in
              if Nat.eqb (length rows) 0 then []
              else sendWebhooks rows (managementPayload metadata context))
           contextArray |}.

End HookLibrary.

(** *** [testHook] *)

(** What [sendWebhookRequest] rejects with: the [HTTPError] of an endpoint
    that answered with an error status, or anything else thrown. *)
Inductive SendError : Type :=
| HTTPError (responseStatus : N) (responseBody : string)
| OtherError (error : Exception).

(** The [RequestError] that [testHook] throws. *)
Module TestHookError.
Record t : Type := {
  status : N;
  code : string;
  message : option string;
  data : option (N * string)
}.
End TestHookError.

Inductive TestHookResult : Type :=
| HookNotFound
| TestFailed (error : TestHookError.t)
| TestPassed.

(** [String(error)] on an error object: the name, then the message if
    there is one. *)
Definition errorToString (e : NativeError) : string :=
  if String.eqb (message e) "" then className (class e)
  else className (class e) +:+ ": " +:+ message e.

(** [conditional(error instanceof Error && String(error)) ?? 'Unknown error'] *)
Definition testFailureMessage (error : Exception) : string :=
  match error with
  | ThrowsError e =>
      match realm e with
      | Host => if String.eqb (errorToString e) "" then "Unknown error" else errorToString e
      | VmContext => "Unknown error"
      end
  | ThrowsValue _ => "Unknown error"
  end.

(** The [catch] clause of [testHook]. *)
Definition testHookCatch (error : SendError) : TestHookError.t :=
  match error with
  | HTTPError responseStatus responseBody =>
      {| TestHookError.status := 422;
         TestHookError.code := "hook.endpoint_responded_with_error";
         TestHookError.message := None;
         TestHookError.data := Some (responseStatus, responseBody) |}
  | OtherError error =>
      {| TestHookError.status := 422;
         TestHookError.code := "hook.send_test_payload_failed";
         TestHookError.message := Some (testFailureMessage error);
         TestHookError.data := None |}
  end.

(** [Promise.all] rejects with a rejection of one of its promises, the one
    that comes first in time, and fulfils when all of them do. *)
Definition rejectsWithOneOf (firstRejection : list (option SendError) → option SendError)
    : Prop :=
  ∀ results,
    match firstRejection results with
    | Some error => Some error ∈ results
    | None => Forall (fun result => result = None) results
    end.

Section TestHook.

Variable findHookById : string → option Hook.t.

(** [generateHookTestPayload] and [sendWebhookRequest] of [./utils.js]; a
    request that goes through gives [None]. *)
Variable generateHookTestPayload : string → string → properties.
Variable sendWebhookRequest : WebhookRequest → option SendError.

(** Which rejection [Promise.all] takes. *)
Variable firstRejection : list (option SendError) → option SendError.

Definition testRequests (hookId : string) (events : list string) (config : value)
    (signingKey : string) : list WebhookRequest :=
  map (fun event =>
         {| hookConfig := config;
            requestPayload := generateHookTestPayload hookId event;
            requestSigningKey := signingKey |})
    events.

Definition testHook (hookId : string) (events : list string) (config : value)
    : TestHookResult :=
  match findHookById hookId with
  | None => HookNotFound
  | Some hook =>
      match firstRejection
              (map sendWebhookRequest
                 (testRequests hookId events config (Hook.signingKey hook))) with
      | Some error => TestFailed (testHookCatch error)
      | None => TestPassed
      end
  end.

End TestHook.

(** The rejection that comes first in the order of the promises. *)
Definition firstInOrder (results : list (option SendError)) : option SendError :=
  mjoin (head (filter (fun result => result ≠ None) results)).

(** *** Example hooks *)

Definition signInHook : Hook.t :=
  {| Hook.id := "hook-1"; Hook.event := None; Hook.events := ["PostSignIn"; "PostRegister"];
     Hook.enabled := true;
     Hook.config := VObject [("url", VString "https://example.com/a")];
     Hook.signingKey := "key-1" |}.

Definition legacyHook : Hook.t :=
  {| Hook.id := "hook-2"; Hook.event := Some "PostSignIn"; Hook.events := [];
     Hook.enabled := true;
     Hook.config := VObject [("url", VString "https://example.com/b")];
     Hook.signingKey := "key-2" |}.

Definition disabledHook : Hook.t :=
  {| Hook.id := "hook-3"; Hook.event := Some "PostSignIn"; Hook.events := ["PostSignIn"];
     Hook.enabled := false;
     Hook.config := VObject [("url", VString "https://example.com/c")];
     Hook.signingKey := "key-3" |}.

Definition exampleHooks : list Hook.t := [signInHook; legacyHook; disabledHook].

Definition exampleEventToHook (event : string) : string :=
  if String.eqb event "SignIn" then "PostSignIn"
  else if String.eqb event "Register" then "PostRegister"
  else "PostResetPassword".

Definition exampleInteraction : InteractionHookContext.t :=
  {| InteractionHookContext.event := "SignIn";
     InteractionHookContext.sessionId := Some "session-1";
     InteractionHookContext.applicationId := None;
     InteractionHookContext.userIp := None |}.

Definition exampleTriggered : Triggered :=
  triggerInteractionHooks exampleHooks (fun _ => None) (fun _ => None) exampleEventToHook
    ["id"; "username"] "2024-01-01T00:00:00.000Z" exampleInteraction "u1" None.

(** A context whose data carries a [hookId] and an [event] of its own. *)
Definition spoofingContext : ManagementHookContext.t :=
  {| ManagementHookContext.event := "PostSignIn";
     ManagementHookContext.data :=
       [("hookId", VString "forged"); ("event", VString "User.Deleted")] |}.

(** ** The regular expressions of the core kit ([regex.ts]) *)

(** A JavaScript string is a sequence of UTF-16 code units. *)
Abbreviation jsString := (list N).

(** The code units of a text of ASCII characters. *)
Definition codeUnits (text : string) : jsString :=
  map Ascii.N_of_ascii (String.list_ascii_of_string text).

(** Regular expressions without flags, on code units. *)
Inductive RegExp : Type :=
| Never
| Epsilon
| Class (member : N → bool)
| Seq (first second : RegExp)
| Alt (one other : RegExp)
| Star (body : RegExp).

(** The strings of a regular expression. *)
Inductive Matches : RegExp → jsString → Prop :=
| MatchesEmpty : Matches Epsilon []
| MatchesClass member c : member c = true → Matches (Class member) [c]
| MatchesSeq first second s t :
    Matches first s → Matches second t → Matches (Seq first second) (s ++ t)
| MatchesOne one other s : Matches one s → Matches (Alt one other) s
| MatchesOther one other s : Matches other s → Matches (Alt one other) s
| MatchesNone body : Matches (Star body) []
| MatchesMore body s t :
    Matches body s → Matches (Star body) t → Matches (Star body) (s ++ t).

(** Matching by derivatives. *)
Fixpoint nullable (r : RegExp) : bool :=
  match r with
  | Never | Class _ => false
  | Epsilon | Star _ => true
  | Seq first second => nullable first && nullable second
  | Alt one other => nullable one || nullable other
  end.

Fixpoint derivative (c : N) (r : RegExp) : RegExp :=
  match r with
  | Never | Epsilon => Never
  | Class member => if member c then Epsilon else Never
  | Seq first second =>
      Alt (Seq (derivative c first) second)
        (if nullable first then derivative c second else Never)
  | Alt one other => Alt (derivative c one) (derivative c other)
  | Star body => Seq (derivative c body) (Star body)
  end.

Fixpoint matches (r : RegExp) (s : jsString) : bool :=
  match s with
  | [] => nullable r
  | c :: rest => matches (derivative c r) rest
  end.

(** [body+], [body?], [body{n}] *)
Definition Plus (body : RegExp) : RegExp := Seq body (Star body).
Definition Optional (body : RegExp) : RegExp := Alt body Epsilon.
Fixpoint Times (n : nat) (body : RegExp) : RegExp :=
  match n with
  | O => Epsilon
  | S m => Seq body (Times m body)
  end.

Definition charCode (text : string) : N :=
  match text with
  | String c _ => Ascii.N_of_ascii c
  | EmptyString => 0
  end.

Definition Char (text : string) : RegExp := Class (N.eqb (charCode text)).

Definition between (low high : string) (c : N) : bool :=
  (charCode low <=? c)%N && (c <=? charCode high)%N.

(** [\d], [\w] and [\s] *)
Definition digit (c : N) : bool := between "0" "9" c.
Definition word (c : N) : bool :=
  between "A" "Z" c || between "a" "z" c || digit c || N.eqb c (charCode "_").
Definition whiteSpace (c : N) : bool :=
  existsb (N.eqb c)
    [ 9; 10; 11; 12; 13; 32; 160; 5760; 8192; 8193; 8194; 8195; 8196; 8197; 8198;
      8199; 8200; 8201; 8202; 8232; 8233; 8239; 8287; 12288; 65279 ]%N.
Definition notWhiteSpace (c : N) : bool := negb (whiteSpace c).

(** [regex.test(text)] for a regular expression anchored at both ends, and
    for one anchored at the start only. *)
Definition test (r : RegExp) (s : jsString) : bool := matches r s.
Definition testPrefix (r : RegExp) (s : jsString) : bool :=
  matches (Seq r (Star (Class (fun _ => true)))) s.

(** [/^\S+@\S+\.\S+$/] *)
Definition emailRegEx : RegExp :=
  Seq (Plus (Class notWhiteSpace))
    (Seq (Char "@")
       (Seq (Plus (Class notWhiteSpace))
          (Seq (Char ".") (Plus (Class notWhiteSpace))))).

(** [/^\d+$/] *)
Definition phoneRegEx : RegExp := Plus (Class digit).

(** [[\d-( )]] *)
Definition phoneInputChar (c : N) : bool :=
  digit c || existsb (N.eqb c) (map charCode ["-"; "("; " "; ")"]).

(** [/^\+?[\d-( )]+$/] *)
Definition phoneInputRegEx : RegExp :=
  Seq (Optional (Char "+")) (Plus (Class phoneInputChar)).

(** [[A-Z_a-z]] *)
Definition usernameStart (c : N) : bool :=
  between "A" "Z" c || N.eqb c (charCode "_") || between "a" "z" c.

(** [/^[A-Z_a-z]\w*$/] *)
Definition usernameRegEx : RegExp := Seq (Class usernameStart) (Star (Class word)).

(** [/^https?:$/] *)
Definition webRedirectUriProtocolRegEx : RegExp :=
  Seq (Char "h") (Seq (Char "t") (Seq (Char "t") (Seq (Char "p")
    (Seq (Optional (Char "s")) (Char ":"))))).

(** [[\d+_a-z-]] *)
Definition schemeChar (c : N) : bool :=
  digit c || existsb (N.eqb c) (map charCode ["+"; "_"; "-"]) || between "a" "z" c.

(** [/^[a-z][\d+_a-z-]*(\.[\d+_a-z-]+)+:$/] *)
Definition mobileUriSchemeProtocolRegEx : RegExp :=
  Seq (Class (between "a" "z"))
    (Seq (Star (Class schemeChar))
       (Seq (Plus (Seq (Char ".") (Plus (Class schemeChar)))) (Char ":"))).

(** [/^\S*:$/] *)
Definition looseNativeUriSchemeProtocolRegEx : RegExp :=
  Seq (Star (Class notWhiteSpace)) (Char ":").

(** [[\da-f]] under the flag [i] *)
Definition hexDigit (c : N) : bool :=
  digit c || between "a" "f" c || between "A" "F" c.

(** [/^#[\da-f]{3}([\da-f]{3})?$/i] *)
Definition hexColorRegEx : RegExp :=
  Seq (Char "#") (Seq (Times 3 (Class hexDigit)) (Optional (Times 3 (Class hexDigit)))).

(** [/^\d{4}(-\d{2}){2}/], anchored at the start only *)
Definition dateRegex : RegExp :=
  Seq (Times 4 (Class digit)) (Times 2 (Seq (Char "-") (Times 2 (Class digit)))).

(** [/^\S+$/] *)
Definition noSpaceRegEx : RegExp := Plus (Class notWhiteSpace).

(** ** The error message of the input field ([InputField]) *)

(** [text.split(separator)] for a separator of one code unit. *)
Fixpoint split (separator : N) (text : jsString) : list jsString :=
  match text with
  | [] => [[]]
  | c :: rest =>
      if N.eqb c separator then [] :: split separator rest
      else match split separator rest with
           | line :: lines => (c :: line) :: lines
           | [] => [[c]]
           end
  end.

(** [lines.join(separator)] *)
Fixpoint join (separator : N) (lines : list jsString) : jsString :=
  match lines with
  | [] => []
  | [line] => line
  | line :: rest => line ++ separator :: join separator rest
  end.

Definition newline : N := 10.

(** What the field shows under the input: nothing, the message as it is, or
    a list with one item for each line of the message. *)
Inductive ErrorContent : Type :=
| NoErrorMessage
| MessageText (message : jsString)
| MessageList (items : list jsString).

(** [errorMessages && (errorMessages.length > 1 ? <ul>...</ul> : errorMessages[0])]
    on [errorMessages = errorMessage?.split('\n')]. *)
Definition errorContent (errorMessage : option jsString) : ErrorContent :=
  match errorMessage with
  | None => NoErrorMessage
  | Some message =>
      let errorMessages := split newline message in
      if (1 <? length errorMessages)%nat then MessageList errorMessages
      else MessageText (default [] (head errorMessages))
  end.

(** *** An example user *)

Definition exampleOrganizations (userId : string) : list Organization.t :=
  [ {| Organization.id := "org-1"; Organization.name := "Acme";
       Organization.description := VNull;
       Organization.organizationRoles :=
         [ {| OrganizationRole.id := "or-1"; OrganizationRole.name := "admin" |};
           {| OrganizationRole.id := "or-2"; OrganizationRole.name := "member" |} ] |};
    {| Organization.id := "org-2"; Organization.name := "Empty";
       Organization.description := VNull;
       Organization.organizationRoles := [] |} ].

Definition exampleUser : User.t :=
  {| User.columns := [("id", VString "u1"); ("username", VString "alice");
                      ("passwordEncrypted", VString "hash")];
     User.mfaVerificationTypes := ["Totp"; "WebAuthn"; "Totp"; "BackupCode"] |}.

Definition exampleContext : JwtCustomizerUserContext :=
  userContextOf (fun _ => []) (fun _ => []) (fun _ => []) (fun _ => []) (fun scopes => scopes)
    exampleOrganizations ["id"; "username"] "u1" exampleUser.

(** ** Properties of property lists *)

Lemma get_set_eq key v props : get key (set key v props) = Some v.
Proof.
  induction props as [|[k w] rest IH]; simpl.
  - by rewrite String.eqb_refl.
  - destruct (String.eqb k key) eqn:E; simpl; by rewrite E.
Qed.

Lemma get_set_ne key key' v props :
  key ≠ key' → get key' (set key v props) = get key' props.
Proof.
  intros Hne. induction props as [|[k w] rest IH]; simpl.
  - destruct (String.eqb key key') eqn:E; [|done].
    by apply String.eqb_eq in E.
  - destruct (String.eqb k key) eqn:E; simpl; [|by rewrite IH].
    apply String.eqb_eq in E. subst k.
    destruct (String.eqb key key') eqn:E'; [|done].
    by apply String.eqb_eq in E'.
Qed.

Lemma get_None_keys key props : get key props = None ↔ key ∉ keys props.
Proof.
  unfold keys. induction props as [|[k w] rest IH]; simpl.
  - split; [intros _; apply not_elem_of_nil | done].
  - rewrite not_elem_of_cons. destruct (String.eqb k key) eqn:E.
    + apply String.eqb_eq in E. split; [done | intros [Hne _]; congruence].
    + apply String.eqb_neq in E. rewrite IH. split; [by intros | by intros [_ ?]].
Qed.

Lemma set_fresh key v props :
  key ∉ keys props → set key v props = props ++ [(key, v)].
Proof.
  unfold keys. induction props as [|[k w] rest IH]; simpl; [done|].
  rewrite not_elem_of_cons. intros [Hne Hrest].
  destruct (String.eqb k key) eqn:E.
  - apply String.eqb_eq in E. congruence.
  - by rewrite IH.
Qed.

Lemma elemb_spec key names : elemb key names = true ↔ key ∈ names.
Proof.
  unfold elemb. rewrite existsb_exists. split.
  - intros (k & Hin & Heq). apply String.eqb_eq in Heq. subst k.
    by apply list_elem_of_In.
  - intros Hin. exists key. split; [by apply list_elem_of_In | apply String.eqb_refl].
Qed.

(** Re-assigning every key of a list of keys: reading back. *)
Lemma get_fold_set (f : string → value) (names : list string) key acc :
  get key (fold_left (fun destination k => set k (f k) destination) names acc)
  = if decide (key ∈ names) then Some (f key) else get key acc.
Proof.
  revert acc. induction names as [|k rest IH]; intros acc; cbn [fold_left].
  - rewrite decide_False; [done | apply not_elem_of_nil].
  - rewrite IH. destruct (decide (key ∈ rest)) as [Hin|Hout].
    + rewrite decide_True; [done | by right].
    + destruct (decide (k = key)) as [->|Hne].
      * rewrite decide_True; [apply get_set_eq | by left].
      * rewrite decide_False; [by apply get_set_ne |].
        rewrite not_elem_of_cons. naive_solver.
Qed.

(** Copying a property list without repeated or inherited names, with a
    copy function that leaves the values alone, gives the list back. *)
Lemma fold_set_copy (g : value → value) props acc :
  NoDup (keys props) →
  (∀ k, k ∈ keys props → k ∉ keys acc) →
  (∀ k w, (k, w) ∈ props → propertyIsUnsafe (VObject []) k = false ∧ g w = w) →
  fold_left
    (fun destination '(k, w) =>
       if propertyIsUnsafe (VObject []) k then destination
       else set k (g w) destination)
    props acc
  = acc ++ props.
Proof.
  unfold keys. revert acc.
  induction props as [|[k w] rest IH]; intros acc Hnd Hfresh Hok; simpl.
  - by rewrite app_nil_r.
  - simpl in Hnd. apply NoDup_cons in Hnd as [Hk Hnd].
    destruct (Hok k w) as [-> ->]; [by left|].
    rewrite set_fresh; [|apply Hfresh; by left].
    rewrite IH; [by rewrite <- app_assoc | done | |].
    + intros k' Hk'. unfold keys. rewrite fmap_app. simpl.
      rewrite elem_of_app, list_elem_of_singleton.
      intros [Hin | ->]; [|done].
      by apply (Hfresh k'); [right|].
    + intros k' w' Hin. apply Hok. by right.
Qed.

(** ** Properties of the merge on deployment documents *)

Lemma tokenKeyName_inj key key' : tokenKeyName key = tokenKeyName key' → key = key'.
Proof. by destruct key, key'. Qed.

Lemma useCaseName_inj useCase useCase' :
  useCaseName useCase = useCaseName useCase' → useCase = useCase'.
Proof. by destruct useCase, useCase'. Qed.

Lemma tokenKeyName_own key : elemb (tokenKeyName key) objectPrototypeProps = false.
Proof. by destruct key. Qed.

Lemma useCaseName_own useCase : elemb (useCaseName useCase) objectPrototypeProps = false.
Proof. by destruct useCase. Qed.

Lemma get_elem_of key v props : get key props = Some v → (key, v) ∈ props.
Proof.
  induction props as [|[k w] rest IH]; simpl; [done|].
  destruct (String.eqb k key) eqn:E.
  - apply String.eqb_eq in E. intros [= ->]. subst k. by left.
  - intros Hget. right. by apply IH.
Qed.

Lemma get_cloneTarget props key :
  get key (cloneTarget (VObject props))
  = cloneUnlessOtherwiseSpecified <$> get key props.
Proof.
  unfold cloneTarget. rewrite get_fold_set. unfold member.
  destruct (get key props) as [v|] eqn:Hget; simpl.
  - rewrite decide_True; [done|].
    apply dec_stable. intros Hout. apply get_None_keys in Hout. congruence.
  - rewrite decide_False; [done|]. by apply get_None_keys.
Qed.

(** Cloning leaves a script or a missing script alone. *)
Lemma clone_script w :
  match w with VString _ | VUndefined => true | _ => false end = true →
  cloneUnlessOtherwiseSpecified w = w.
Proof. by destruct w. Qed.

(** Cloning gives an entry of scripts back as it is. *)
Lemma clone_scripts_entry v :
  isScriptsEntry v = true → cloneUnlessOtherwiseSpecified v = v.
Proof.
  destruct v as [| | | | | |entry|]; try done. simpl.
  intros [Hnd Hall]%andb_prop. f_equal.
  apply bool_decide_eq_true in Hnd.
  rewrite fold_set_copy; [done | done | intros; apply not_elem_of_nil |].
  intros k w Hin. rewrite forallb_forall in Hall.
  apply list_elem_of_In, Hall in Hin. apply andb_prop in Hin as [Hname Hscript].
  split; [|by apply clone_script].
  repeat (apply orb_prop in Hname as [Hname|Hname]); try done;
    apply String.eqb_eq in Hname; by subst k.
Qed.

Lemma document_entry document name entry :
  isDeploymentDocument document = true →
  entryOf document name = Some entry →
  isScriptsEntry entry = true.
Proof.
  destruct document as [| | | | | |props|]; try done. simpl.
  intros [_ Hall]%andb_prop Hget. rewrite forallb_forall in Hall.
  apply get_elem_of, list_elem_of_In, Hall in Hget.
  by apply andb_prop in Hget as [_ ?].
Qed.

Lemma entry_slot entry name w :
  isScriptsEntry (VObject entry) = true →
  get name entry = Some w →
  cloneUnlessOtherwiseSpecified w = w.
Proof.
  simpl. intros [_ Hall]%andb_prop Hget. rewrite forallb_forall in Hall.
  apply get_elem_of, list_elem_of_In, Hall in Hget.
  apply andb_prop in Hget as [_ ?]. by apply clone_script.
Qed.

(** What [mergeObject] copies over from a deployment document. *)
Lemma get_cloneTarget_document props name :
  isDeploymentDocument (VObject props) = true →
  get name (cloneTarget (VObject props)) = get name props.
Proof.
  intros Hdoc. rewrite get_cloneTarget.
  destruct (get name props) as [entry|] eqn:Hget; [|done]. simpl.
  f_equal. apply clone_scripts_entry.
  by apply (document_entry (VObject props) name).
Qed.

(** Merging a patch for one token key into a document: the entry the
    document keeps for that key. *)
Lemma deepmerge_patch_entry props key patch :
  entryOf (deepmerge (VObject props) (VObject [(tokenKeyName key, VObject patch)]))
    (tokenKeyName key)
  = Some (match get (tokenKeyName key) props with
          | Some entry => deepmerge entry (VObject patch)
          | None => cloneUnlessOtherwiseSpecified (VObject patch)
          end).
Proof.
  cbn [deepmerge isArray fold_left entryOf].
  unfold propertyIsUnsafe, propertyIsOnObject, ownEnumerable, hasOwn, member.
  rewrite tokenKeyName_own.
  destruct (get (tokenKeyName key) props) as [entry|]; cbn [orb andb negb default isMergeableObject];
    apply get_set_eq.
Qed.

(** The entries of the other keys are the document's own. *)
Lemma deepmerge_patch_other props key patch name :
  isDeploymentDocument (VObject props) = true →
  name ≠ tokenKeyName key →
  entryOf (deepmerge (VObject props) (VObject [(tokenKeyName key, VObject patch)])) name
  = get name props.
Proof.
  intros Hdoc Hne.
  cbn [deepmerge isArray fold_left entryOf].
  unfold propertyIsUnsafe, propertyIsOnObject, ownEnumerable, hasOwn, member.
  rewrite tokenKeyName_own.
  destruct (get (tokenKeyName key) props) as [entry|]; cbn [orb andb negb default isMergeableObject];
    (rewrite get_set_ne; [by apply get_cloneTarget_document | done]).
Qed.

(** A name that [Object.prototype] does not have is never unsafe to merge. *)
Lemma own_name_safe props name :
  elemb name objectPrototypeProps = false →
  propertyIsUnsafe (VObject props) name = false.
Proof.
  intros Hown. unfold propertyIsUnsafe, propertyIsOnObject, ownEnumerable.
  rewrite Hown. by destruct (hasOwn name props).
Qed.

(** Merging a script into an entry: the slot written and the other slot. *)
Lemma deepmerge_entry_script entry name text other :
  elemb name objectPrototypeProps = false →
  isScriptsEntry (VObject entry) = true →
  ∃ merged,
    deepmerge (VObject entry) (VObject [(name, VString text)]) = VObject merged
    ∧ get name merged = Some (VString text)
    ∧ (other ≠ name → get other merged = get other entry).
Proof.
  intros Hown Hentry. eexists. split; [reflexivity|].
  cbn [fold_left]. rewrite own_name_safe by done.
  rewrite andb_false_r. cbn [cloneUnlessOtherwiseSpecified].
  split; [apply get_set_eq|].
  intros Hne. rewrite get_set_ne by done. rewrite get_cloneTarget.
  destruct (get other entry) as [w|] eqn:Hget; [|done]. simpl.
  f_equal. by apply (entry_slot entry other).
Qed.

(** Merging the two missing scripts into an entry: both slots stay, and
    hold [undefined]. *)
Lemma deepmerge_entry_undefined target :
  isArray target = false →
  ∃ merged,
    deepmerge target (VObject [("production", VUndefined); ("test", VUndefined)])
    = VObject merged
    ∧ get "production" merged = Some VUndefined
    ∧ get "test" merged = Some VUndefined.
Proof.
  intros Harray. eexists. split.
  { cbn [deepmerge]. rewrite Harray. reflexivity. }
  cbn [fold_left].
  assert (Hsafe : ∀ name, elemb name objectPrototypeProps = false →
                          elemb name functionProps = false →
                          propertyIsUnsafe target name = false).
  { intros name Hn Hf. destruct target; try done.
    - by apply own_name_safe.
    - unfold propertyIsUnsafe, propertyIsOnObject. by rewrite Hf. }
  rewrite !Hsafe by done. rewrite !andb_false_r.
  cbn [cloneUnlessOtherwiseSpecified].
  split; [|apply get_set_eq].
  rewrite get_set_ne by done. apply get_set_eq.
Qed.

Lemma entry_not_array entry : isScriptsEntry entry = true → isArray entry = false.
Proof. by destruct entry. Qed.

(** ** The claims on deployment *)

(** C1, as stated, fails: with the customizers of both token keys
    configured, removing the access-token one pushes a document that still
    has the [jwt.accessToken] entry, both slots of which are empty. *)
Lemma undeploy_keeps_removed_key :
  ¬ (∀ document,
       undeployJwtCustomizerScript true storedScripts twoCustomizers AccessToken
       = Sends (Put document) →
       entryOf document (tokenKeyName AccessToken) = None
       ∧ minimalDocument document).
Proof.
  intros Hclaim.
  destruct (Hclaim _ eq_refl) as [Habsent _].
  vm_compute in Habsent. discriminate.
Qed.

(** C1, amended: when another customizer remains, removing a configured key
    pushes the merged document, in which the entry of the removed key is
    kept with both of its slots holding [undefined], and the entry of every
    other key is the one of the document from the store. *)
Theorem undeploy_blanks_both_slots
    (getJwtCustomizerScripts : JwtCustomizers → value)
    (jwtCustomizers : JwtCustomizers) (key : LogtoJwtTokenKey) :
  is_Some (jwtCustomizers !! key) →
  size jwtCustomizers ≠ 1 →
  isDeploymentDocument (getJwtCustomizerScripts jwtCustomizers) = true →
  ∃ document entry,
    undeployJwtCustomizerScript true getJwtCustomizerScripts jwtCustomizers key
    = Sends (Put document)
    ∧ entryOf document (tokenKeyName key) = Some (VObject entry)
    ∧ Forall (fun useCase => get (useCaseName useCase) entry = Some VUndefined)
        [Production; Test]
    ∧ ∀ name, name ≠ tokenKeyName key →
              entryOf document name
              = entryOf (getJwtCustomizerScripts jwtCustomizers) name.
Proof.
  intros [customizer Hkey] Hsize Hdoc.
  unfold undeployJwtCustomizerScript. cbn [negb]. rewrite Hkey.
  apply Nat.eqb_neq in Hsize. rewrite Hsize.
  destruct (getJwtCustomizerScripts jwtCustomizers) as [| | | | | |props|] eqn:Hstore;
    try done.
  unfold undeployPatch.
  pose proof (deepmerge_patch_entry props key
                [("production", VUndefined); ("test", VUndefined)]) as Hentry.
  assert (Harray : isArray
            (match get (tokenKeyName key) props with
             | Some entry => entry
             | None => VObject []
             end) = false).
  { destruct (get (tokenKeyName key) props) as [entry|] eqn:Hget; [|done].
    apply entry_not_array. by apply (document_entry (VObject props) (tokenKeyName key)). }
  destruct (get (tokenKeyName key) props) as [entry|] eqn:Hget.
  - destruct (deepmerge_entry_undefined entry Harray) as (merged & Hmerged & Hp & Ht).
    rewrite Hmerged in Hentry.
    eexists _, merged. split; [reflexivity|]. split; [exact Hentry|].
    split; [by repeat constructor|].
    intros name Hne. by apply deepmerge_patch_other.
  - eexists _, _. split; [reflexivity|]. split; [exact Hentry|].
    split; [by repeat constructor|].
    intros name Hne. by apply deepmerge_patch_other.
Qed.

Lemma undeploy_blanks_both_slots_witness :
  ∃ document entry,
    undeployJwtCustomizerScript true storedScripts twoCustomizers ClientCredentials
    = Sends (Put document)
    ∧ entryOf document (tokenKeyName ClientCredentials) = Some (VObject entry)
    ∧ Forall (fun useCase => get (useCaseName useCase) entry = Some VUndefined)
        [Production; Test]
    ∧ ∀ name, name ≠ tokenKeyName ClientCredentials →
              entryOf document name = entryOf (storedScripts twoCustomizers) name.
Proof.
  apply (undeploy_blanks_both_slots storedScripts twoCustomizers ClientCredentials).
  - vm_compute. eauto.
  - vm_compute. lia.
  - reflexivity.
Defined.

(** The store holds one customizer exactly when no key but the given,
    configured one is configured. *)
Lemma size_one_iff_only (jwtCustomizers : JwtCustomizers) (key : LogtoJwtTokenKey) :
  is_Some (jwtCustomizers !! key) →
  size jwtCustomizers = 1 ↔ ∀ other, other ≠ key → jwtCustomizers !! other = None.
Proof.
  intros Hkey.
  pose proof (map_size_delete_Some key jwtCustomizers Hkey) as Hsize.
  assert (Hpos : size jwtCustomizers ≠ 0).
  { apply map_size_ne_0_lookup. by exists key. }
  split.
  - intros Hone other Hne.
    rewrite <- (lookup_delete_ne jwtCustomizers key other) by done.
    assert (Hempty : delete key jwtCustomizers = ∅).
    { apply map_size_empty_iff. lia. }
    by rewrite Hempty.
  - intros Honly.
    assert (Hempty : delete key jwtCustomizers = ∅).
    { apply map_eq. intros other. rewrite lookup_empty.
      destruct (decide (other = key)) as [->|Hne].
      - apply lookup_delete_eq.
      - rewrite lookup_delete_ne by done. by apply Honly. }
    rewrite Hempty, map_size_empty in Hsize. lia.
Qed.

(** C6: removing a configured key has the worker deleted, instead of a
    document pushed, exactly when no other customizer is configured; with
    another one configured a document is pushed. *)
Theorem undeploy_tears_down_iff_last
    (getJwtCustomizerScripts : JwtCustomizers → value)
    (jwtCustomizers : JwtCustomizers) (key : LogtoJwtTokenKey) :
  is_Some (jwtCustomizers !! key) →
  (undeployJwtCustomizerScript true getJwtCustomizerScripts jwtCustomizers key
   = Sends Delete
   ↔ ∀ other, other ≠ key → jwtCustomizers !! other = None)
  ∧ (∀ other, other ≠ key → is_Some (jwtCustomizers !! other) →
       ∃ document,
         undeployJwtCustomizerScript true getJwtCustomizerScripts jwtCustomizers key
         = Sends (Put document)).
Proof.
  intros Hkey. pose proof (size_one_iff_only jwtCustomizers key Hkey) as Hone.
  destruct Hkey as [customizer Hkey].
  unfold undeployJwtCustomizerScript. cbn [negb]. rewrite Hkey.
  destruct (Nat.eqb (size jwtCustomizers) 1) eqn:Hsize.
  - apply Nat.eqb_eq in Hsize. split.
    + split; [intros _; by apply Hone | done].
    + intros other Hne [c Hother]. rewrite (proj1 Hone Hsize other Hne) in Hother.
      discriminate.
  - apply Nat.eqb_neq in Hsize. split.
    + split; [done | intros Honly; by apply Hone in Honly].
    + intros other _ _. by eexists.
Qed.

Lemma undeploy_tears_down_iff_last_witness :
  undeployJwtCustomizerScript true storedScripts oneCustomizer AccessToken = Sends Delete
  ∧ ∃ document,
      undeployJwtCustomizerScript true storedScripts twoCustomizers AccessToken
      = Sends (Put document).
Proof.
  split.
  - apply (undeploy_tears_down_iff_last storedScripts oneCustomizer AccessToken).
    + vm_compute. eauto.
    + intros [] Hne; [done | reflexivity].
  - apply (undeploy_tears_down_iff_last storedScripts twoCustomizers AccessToken)
      with (other := ClientCredentials).
    + vm_compute. eauto.
    + done.
    + vm_compute. eauto.
Defined.

(** C7: deploying a script pushes the merge of the document from the store
    and the one-slot patch; in it the slot addressed holds the script given,
    the entry of every other key is the one of the document, and under the
    same key the slot of the other use case is the one of the document. *)
Theorem deploy_writes_one_slot
    (getJwtCustomizerScripts : JwtCustomizers → value)
    (jwtCustomizers : JwtCustomizers) (key : LogtoJwtTokenKey)
    (customizer : JwtCustomizer) (useCase : UseCase) :
  isDeploymentDocument (getJwtCustomizerScripts jwtCustomizers) = true →
  ∃ document,
    deployJwtCustomizerScript true getJwtCustomizerScripts jwtCustomizers key
      customizer useCase
    = Sends (Put document)
    ∧ slotOf document key useCase = Some (VString (script customizer))
    ∧ (∀ name, name ≠ tokenKeyName key →
         entryOf document name
         = entryOf (getJwtCustomizerScripts jwtCustomizers) name)
    ∧ (∀ sibling, sibling ≠ useCase →
         slotOf document key sibling
         = slotOf (getJwtCustomizerScripts jwtCustomizers) key sibling).
Proof.
  intros Hdoc. unfold deployJwtCustomizerScript. cbn [negb].
  destruct (getJwtCustomizerScripts jwtCustomizers) as [| | | | | |props|] eqn:Hstore;
    try done.
  eexists. split; [reflexivity|]. unfold deployPatch, slotOf.
  rewrite deepmerge_patch_entry. cbn [entryOf].
  destruct (get (tokenKeyName key) props) as [entry|] eqn:Hget.
  - assert (Hentry : isScriptsEntry entry = true)
      by by apply (document_entry (VObject props) (tokenKeyName key)).
    destruct entry as [| | | | | |slots|]; try done.
    split; [|split].
    + destruct (deepmerge_entry_script slots (useCaseName useCase)
                  (script customizer) "") as (merged & -> & Hslot & _);
        [apply useCaseName_own | done | done].
    + intros name Hne. by apply deepmerge_patch_other.
    + intros sibling Hne.
      destruct (deepmerge_entry_script slots (useCaseName useCase)
                  (script customizer) (useCaseName sibling))
        as (merged & -> & _ & Hother); [apply useCaseName_own | done |].
      apply Hother. intros Heq. by apply useCaseName_inj in Heq.
  - split; [|split].
    + by destruct useCase.
    + intros name Hne. by apply deepmerge_patch_other.
    + intros sibling Hne. by destruct useCase, sibling.
Qed.

Lemma deploy_writes_one_slot_witness :
  ∃ document,
    deployJwtCustomizerScript true testOnly oneCustomizer AccessToken
      {| script := "function getCustomJwtClaims(){return {tier:'gold'}}";
         environmentVariables := [] |} Production
    = Sends (Put document)
    ∧ slotOf document AccessToken Production
      = Some (VString "function getCustomJwtClaims(){return {tier:'gold'}}")
    ∧ (∀ name, name ≠ tokenKeyName AccessToken →
         entryOf document name = entryOf (testOnly oneCustomizer) name)
    ∧ (∀ sibling, sibling ≠ Production →
         slotOf document AccessToken sibling
         = slotOf (testOnly oneCustomizer) AccessToken sibling).
Proof.
  apply (deploy_writes_one_slot testOnly oneCustomizer AccessToken
           {| script := "function getCustomJwtClaims(){return {tier:'gold'}}";
              environmentVariables := [] |} Production).
  reflexivity.
Defined.

(** ** Properties of the local run *)

Section LocalRunFacts.

Variable v8 : string → ScriptSemantics.
Variable captureStackTrace : string → string.

Abbreviation run := (runScriptInLocalVm v8 captureStackTrace).
Abbreviation evaluationOf gc data :=
  (evaluateScript captureStackTrace (v8 (CustomJwtFetcher.script data)) gc).1.
Abbreviation callOf fn data :=
  (callFunction (v8 (CustomJwtFetcher.script data)) fn (payloadOf data)).
Abbreviation notAFunction := (notAFunction captureStackTrace).

(** The outcome of a run, step by step. *)
Lemma run_outcome gc data :
  outcome (run gc data)
  = match completion (evaluationOf gc data) with
    | Abrupt exception => inl (catchClause (Thrown exception))
    | Normal fn =>
        if String.eqb (typeof fn) "function"
        then settle (runInNewContext captureStackTrace (callOf fn data) (Some 3000%N))
        else inl (catchClause (Thrown notAFunction))
    end.
Proof.
  unfold runScriptInLocalVm, tryBlock.
  destruct (evaluateScript _ _ _) as [evaluation gc'].
  change (runInNewContext captureStackTrace evaluation None)
    with (completion evaluation). cbn [fst].
  destruct (completion evaluation) as [fn|exception]; [|done].
  destruct (String.eqb (typeof fn) "function"); cbn [negb]; [|done].
  unfold settle.
  destruct (runInNewContext _ _ _) as [result|exception]; [|done].
  by destruct (parseRecord result).
Qed.

(** What the [catch] clause receives, step by step. *)
Lemma run_caught gc data :
  caught v8 captureStackTrace gc data
  = match completion (evaluationOf gc data) with
    | Abrupt exception => Some (Thrown exception)
    | Normal fn =>
        if String.eqb (typeof fn) "function"
        then match runInNewContext captureStackTrace (callOf fn data) (Some 3000%N) with
             | Abrupt exception => Some (Thrown exception)
             | Normal result =>
                 match parseRecord result with
                 | inl error => Some error
                 | inr _ => None
                 end
             end
        else Some (Thrown notAFunction)
    end.
Proof.
  unfold caught, tryBlock.
  destruct (evaluateScript _ _ _) as [evaluation gc'].
  change (runInNewContext captureStackTrace evaluation None)
    with (completion evaluation). cbn [fst].
  destruct (completion evaluation) as [fn|exception]; [|done].
  destruct (String.eqb (typeof fn) "function"); cbn [negb]; [|done].
  by destruct (runInNewContext _ _ _) as [result|exception].
Qed.

(** A failing run answers with the [catch] clause on what was caught. *)
Lemma run_failure gc data response :
  outcome (run gc data) = inl response →
  ∃ error, caught v8 captureStackTrace gc data = Some error
           ∧ response = catchClause error.
Proof.
  rewrite run_outcome, run_caught.
  destruct (completion (evaluationOf gc data)) as [fn|exception].
  - destruct (String.eqb (typeof fn) "function").
    + unfold settle. destruct (runInNewContext _ _ _) as [result|exception].
      * destruct (parseRecord result) as [error|claims]; [|done].
        intros [= <-]. by eexists.
      * intros [= <-]. by eexists.
    + intros [= <-]. by eexists.
  - intros [= <-]. by eexists.
Qed.

(** The [catch] clause receives a [ZodError] only from the result check. *)
Lemma caught_zod gc data errors :
  caught v8 captureStackTrace gc data = Some (ZodError errors) →
  ∃ result, entryPointResult v8 captureStackTrace gc data = Some result
            ∧ isRecord result = false
            ∧ errors = [invalidType result].
Proof.
  rewrite run_caught. unfold entryPointResult.
  destruct (completion (evaluationOf gc data)) as [fn|exception]; [|done].
  destruct (String.eqb (typeof fn) "function"); [|done].
  destruct (runInNewContext _ _ _) as [result|exception]; [|done].
  destruct result; try done; intros [= <-]; by eexists.
Qed.

Lemma status_thrown exception : status (catchClause (Thrown exception)) ≠ 400%N.
Proof.
  simpl. by destruct (instanceOf SyntaxError exception || instanceOf TypeError exception).
Qed.

(** C2: when the entry point returns what is not a record, the run fails
    with the response of status 400 and message [Invalid input] that lists
    the zod issue; and no failure for another reason has that status. *)
Theorem invalid_result_is_the_400_failure
    (globalContext : Sandbox) (data : CustomJwtFetcher.t) :
  (∀ result,
     entryPointResult v8 captureStackTrace globalContext data = Some result →
     isRecord result = false →
     outcome (run globalContext data)
     = inl {| status := 400;
              body := VObject [ ("message", VString "Invalid input");
                                ("errors", VArray [issueValue (invalidType result)]) ] |})
  ∧ (∀ response,
       outcome (run globalContext data) = inl response →
       status response = 400%N →
       ∃ result,
         entryPointResult v8 captureStackTrace globalContext data = Some result
         ∧ isRecord result = false).
Proof.
  split.
  - intros result Hresult Hshape. rewrite run_outcome.
    unfold entryPointResult in Hresult.
    destruct (completion (evaluationOf globalContext data)) as [fn|exception]; [|done].
    destruct (String.eqb (typeof fn) "function"); [|done].
    destruct (runInNewContext _ _ _) as [returned|exception]; [|done].
    injection Hresult as ->. by destruct result.
  - intros response Hfail Hstatus.
    destruct (run_failure _ _ _ Hfail) as (error & Hcaught & ->).
    destruct error as [errors|exception].
    + destruct (caught_zod _ _ _ Hcaught) as (result & ? & ? & _). by exists result.
    + by apply status_thrown in Hstatus.
Qed.



(** The timeout of 3000 ms on the synchronous run of the call of the entry
    point: a call that outlasts it fails with status 500 and the message of
    the vm, and no claims are returned. *)
Lemma deadline_is_on_the_call (globalContext : Sandbox) (data : CustomJwtFetcher.t)
    (getCustomJwtClaims : value) :
  completion (evaluationOf globalContext data) = Normal getCustomJwtClaims →
  typeof getCustomJwtClaims = "function" →
  (3000 < elapsed (callOf getCustomJwtClaims data))%N →
  outcome (run globalContext data)
  = inl {| status := 500;
           body :=
             VObject
               [ ("message", VString "Script execution timed out after 3000ms");
                 ("stack",
                  VString (captureStackTrace
                             "Error: Script execution timed out after 3000ms")) ] |}.
Proof.
  intros Hevaluation Htype Hlate. rewrite run_outcome, Hevaluation, Htype.
  cbn [String.eqb Ascii.eqb Bool.eqb andb]. unfold runInNewContext.
  apply N.ltb_lt in Hlate. by rewrite Hlate.
Qed.

(** C5, amended: the body of a failing run always has a [message]; it has
    the [stack] of the error whenever an error object with a stack was
    thrown, and no [stack] for any other thrown value and for a failed
    validation. *)
Theorem failure_body_carries_the_stack (globalContext : Sandbox)
    (data : CustomJwtFetcher.t) (response : ResponseError) :
  outcome (run globalContext data) = inl response →
  ∃ error,
    caught v8 captureStackTrace globalContext data = Some error
    ∧ (∃ text, jsonProperty "message" (body response) = Some (VString text))
    ∧ jsonProperty "stack" (body response)
      = match error with
        | Thrown (ThrowsError e) => VString <$> stack e
        | _ => None
        end.
Proof.
  intros Hfail. destruct (run_failure _ _ _ Hfail) as (error & Hcaught & ->).
  exists error. split; [done|].
  destruct error as [errors|[e|v]]; cbn; [by eauto | | by eauto].
  split; [by eauto|]. by destruct (stack e).
Qed.

(** The calls of a run on the vm: the evaluation against [globalContext],
    then, if there is a function to call, the call against the frozen pair
    of the function and the payload. *)
Lemma run_vmCalls gc data :
  vmSandbox <$> vmCalls (run gc data) = [gc]
  ∨ ∃ fn, typeof fn = "function"
          ∧ vmSandbox <$> vmCalls (run gc data)
            = [gc; Object_freeze [("getCustomJwtClaims", fn); ("payload", payloadOf data)]].
Proof.
  unfold runScriptInLocalVm, tryBlock.
  destruct (evaluateScript _ _ _) as [evaluation gc'].
  change (runInNewContext captureStackTrace evaluation None)
    with (completion evaluation).
  destruct (completion evaluation) as [fn|exception]; [|by left].
  destruct (String.eqb (typeof fn) "function") eqn:Htype; cbn [negb]; [|by left].
  apply String.eqb_eq in Htype. right. exists fn. split; [done|].
  by destruct (runInNewContext _ _ _).
Qed.


(** The shared object after a run is the one the evaluation leaves. *)
Lemma run_globalContextAfter gc data :
  globalContextAfter (run gc data)
  = (evaluateScript captureStackTrace (v8 (CustomJwtFetcher.script data)) gc).2.
Proof.
  unfold runScriptInLocalVm, tryBlock.
  destruct (evaluateScript _ _ _) as [evaluation gc'].
  change (runInNewContext captureStackTrace evaluation None)
    with (completion evaluation). cbn [snd].
  destruct (completion evaluation) as [fn|exception]; [|done].
  destruct (negb _); [done|].
  by destruct (runInNewContext _ _ _).
Qed.




(** The payload, field by field: each listed field is there, with
    [undefined] for one that [data] does not have. *)
Lemma payloadOf_fields data :
  payloadOf data
  = VObject
      (if LogtoJwtTokenKeyType.eqb (CustomJwtFetcher.tokenType data)
            LogtoJwtTokenKeyType.AccessToken
       then [ ("token", CustomJwtFetcher.token data);
              ("context", default VUndefined (CustomJwtFetcher.context data));
              ("environmentVariables",
               default VUndefined (CustomJwtFetcher.environmentVariables data)) ]
       else [ ("token", CustomJwtFetcher.token data);
              ("environmentVariables",
               default VUndefined (CustomJwtFetcher.environmentVariables data)) ]).
Proof. by destruct data as [text [] token [c|] [e|]]. Qed.

(** C8: the payload handed to the entry point is the [payload] of the run,
    whatever earlier runs have left in the shared context. For the
    access-token type its fields are [token], [context] and
    [environmentVariables], each the one of [data] ([undefined] when [data]
    has none); for any other type they are [token] and
    [environmentVariables], and it has no [context] property at all. *)
Theorem payload_by_token_type (names : properties) (data : CustomJwtFetcher.t)
    (payload : value) :
  payload ∈ payloadsHandedOver (run (globalContextWith names) data) →
  payload = payloadOf data
  ∧ if LogtoJwtTokenKeyType.eqb (CustomJwtFetcher.tokenType data)
         LogtoJwtTokenKeyType.AccessToken
    then payload
         = VObject
             [ ("token", CustomJwtFetcher.token data);
               ("context", default VUndefined (CustomJwtFetcher.context data));
               ("environmentVariables",
                default VUndefined (CustomJwtFetcher.environmentVariables data)) ]
    else payload
         = VObject
             [ ("token", CustomJwtFetcher.token data);
               ("environmentVariables",
                default VUndefined (CustomJwtFetcher.environmentVariables data)) ]
         ∧ entryOf payload "context" = None.
Proof.
  intros Hin.
  assert (Hpayload : payload = payloadOf data).
  { unfold payloadsHandedOver in Hin. apply list_elem_of_omap in Hin as (call & Hcall & Hget).
    apply (list_elem_of_fmap_2 vmSandbox) in Hcall.
    destruct (run_vmCalls (globalContextWith names) data) as [Hcalls | (fn & _ & Hcalls)];
      rewrite Hcalls in Hcall; set_unfold in Hcall.
    - destruct Hcall as [Hcall | []]. by rewrite Hcall in Hget.
    - destruct Hcall as [Hcall | [Hcall | []]]; rewrite Hcall in Hget; [done|].
      cbn in Hget. congruence. }
  split; [done|]. rewrite Hpayload, payloadOf_fields.
  by destruct (LogtoJwtTokenKeyType.eqb _ _).
Qed.


(** A name bound to what is not a function: the [TypeError] of the host,
    status 422. *)
Lemma entry_point_not_callable gc data v :
  completion (evaluationOf gc data) = Normal v →
  typeof v ≠ "function" →
  outcome (run gc data)
  = inl {| status := 422;
           body :=
             VObject
               [ ("message",
                  VString "The script does not have a function named `getCustomJwtClaims`");
                 ("stack",
                  VString (captureStackTrace
                             "TypeError: The script does not have a function named `getCustomJwtClaims`")) ] |}.
Proof.
  intros Hevaluation Htype. rewrite run_outcome, Hevaluation.
  apply String.eqb_neq in Htype. by rewrite Htype.
Qed.

(** A name bound nowhere in the context when the script has run: the
    [ReferenceError] of the evaluation, status 500, before the check of the
    type is reached. *)
Lemma entry_point_absent gc data bindings :
  declared (runBody (v8 (CustomJwtFetcher.script data)) gc) = Normal bindings →
  suffix (runBody (v8 (CustomJwtFetcher.script data)) gc) = ReadsEntryPoint →
  get "getCustomJwtClaims" (visibleGlobals (globalContextAfter (run gc data))) = None →
  outcome (run gc data)
  = inl {| status := 500;
           body :=
             VObject
               [ ("message", VString "getCustomJwtClaims is not defined");
                 ("stack",
                  VString (captureStackTrace
                             "ReferenceError: getCustomJwtClaims is not defined")) ] |}.
Proof.
  intros Hdeclared Hsuffix Hget. rewrite run_outcome.
  rewrite run_globalContextAfter in Hget. revert Hget.
  unfold evaluateScript. cbn [fst snd completion].
  rewrite Hdeclared, Hsuffix. by intros ->.
Qed.

(** The suffix lost in a line comment: the evaluation gives the value of
    the script, and a script of declarations has none, so the run fails
    with the [TypeError] of the host although the function is declared. *)
Lemma entry_point_in_comment gc data bindings completionValue :
  declared (runBody (v8 (CustomJwtFetcher.script data)) gc) = Normal bindings →
  suffix (runBody (v8 (CustomJwtFetcher.script data)) gc) = InComment completionValue →
  typeof completionValue ≠ "function" →
  outcome (run gc data)
  = inl {| status := 422;
           body :=
             VObject
               [ ("message",
                  VString "The script does not have a function named `getCustomJwtClaims`");
                 ("stack",
                  VString (captureStackTrace
                             "TypeError: The script does not have a function named `getCustomJwtClaims`")) ] |}.
Proof.
  intros Hdeclared Hsuffix Htype.
  apply (entry_point_not_callable gc data completionValue); [|done].
  unfold evaluateScript. cbn [fst completion]. by rewrite Hdeclared, Hsuffix.
Qed.

End LocalRunFacts.

Lemma invalid_result_is_the_400_failure_witness :
  outcome (exampleRun stringScript LogtoJwtTokenKeyType.AccessToken)
  = inl {| status := 400;
           body := VObject [ ("message", VString "Invalid input");
                             ("errors", VArray [issueValue (invalidType (VString "admin"))]) ] |}.
Proof.
  apply (invalid_result_is_the_400_failure exampleEngine exampleTrace globalContext
           (exampleData stringScript LogtoJwtTokenKeyType.AccessToken)).
  - reflexivity.
  - reflexivity.
Defined.



(** C4: the timeout of 3000 ms does not bound the time of a run. The script
    whose entry point loops for five seconds is stopped and fails with the
    error of the timeout; the script whose entry point waits ten seconds
    for a fetch, and the script whose body loops for ten seconds, take
    longer than the 3000 ms and return their claims. *)
Lemma awaited_promise_outlasts_the_timeout :
  outcome (exampleRun slowCallScript LogtoJwtTokenKeyType.AccessToken)
  = inl {| status := 500;
           body :=
             VObject
               [ ("message", VString "Script execution timed out after 3000ms");
                 ("stack",
                  VString (exampleTrace "Error: Script execution timed out after 3000ms")) ] |}
  ∧ timeInVm exampleEngine exampleTrace globalContext
      (exampleData slowFetchScript LogtoJwtTokenKeyType.AccessToken) = 10002%N
  ∧ outcome (exampleRun slowFetchScript LogtoJwtTokenKeyType.AccessToken) = inr []
  ∧ timeInVm exampleEngine exampleTrace globalContext
      (exampleData slowBodyScript LogtoJwtTokenKeyType.AccessToken) = 10001%N
  ∧ outcome (exampleRun slowBodyScript LogtoJwtTokenKeyType.AccessToken) = inr [].
Proof. repeat split; reflexivity. Qed.

Lemma deadline_is_on_the_call_witness :
  outcome (exampleRun slowCallScript LogtoJwtTokenKeyType.AccessToken)
  = inl {| status := 500;
           body :=
             VObject
               [ ("message", VString "Script execution timed out after 3000ms");
                 ("stack",
                  VString (exampleTrace "Error: Script execution timed out after 3000ms")) ] |}.
Proof.
  apply (deadline_is_on_the_call exampleEngine exampleTrace globalContext
           (exampleData slowCallScript LogtoJwtTokenKeyType.AccessToken)
           (VFunction slowCallScript)).
  - reflexivity.
  - reflexivity.
  - reflexivity.
Defined.

(** C5, as stated, fails: when the entry point throws an [Error], the body
    of the response has its stack. *)
Lemma thrown_error_stack_is_in_the_body :
  ¬ (∀ response,
       outcome (exampleRun throwingScript LogtoJwtTokenKeyType.AccessToken) = inl response →
       jsonProperty "stack" (body response) = None).
Proof.
  intros Hclaim. specialize (Hclaim _ eq_refl). vm_compute in Hclaim. discriminate Hclaim.
Qed.

Lemma failure_body_carries_the_stack_witness :
  ∃ error,
    caught exampleEngine exampleTrace globalContext
      (exampleData throwingScript LogtoJwtTokenKeyType.AccessToken) = Some error
    ∧ (∃ text,
         jsonProperty "message"
           (VObject [ ("message", VString "boom");
                      ("stack", VString (exampleTrace "Error: boom")) ])
         = Some (VString text))
    ∧ jsonProperty "stack"
        (VObject [ ("message", VString "boom");
                   ("stack", VString (exampleTrace "Error: boom")) ])
      = match error with
        | Thrown (ThrowsError e) => VString <$> stack e
        | _ => None
        end.
Proof.
  apply (failure_body_carries_the_stack exampleEngine exampleTrace globalContext
           (exampleData throwingScript LogtoJwtTokenKeyType.AccessToken)
           {| status := 500;
              body := VObject [ ("message", VString "boom");
                                ("stack", VString (exampleTrace "Error: boom")) ] |}).
  reflexivity.
Defined.

Lemma payload_by_token_type_witness :
  VObject [ ("token", VObject [("sub", VString "u1")]);
            ("environmentVariables", VUndefined) ]
  = payloadOf
      {| CustomJwtFetcher.script := emptyClaims;
         CustomJwtFetcher.tokenType := LogtoJwtTokenKeyType.ClientCredentials;
         CustomJwtFetcher.token := VObject [("sub", VString "u1")];
         CustomJwtFetcher.context :=
           Some (VObject [("user", VObject [("id", VString "u1")])]);
         CustomJwtFetcher.environmentVariables := None |}
  ∧ (VObject [ ("token", VObject [("sub", VString "u1")]);
               ("environmentVariables", VUndefined) ]
     = VObject [ ("token", VObject [("sub", VString "u1")]);
                 ("environmentVariables", VUndefined) ]
     ∧ entryOf
         (VObject [ ("token", VObject [("sub", VString "u1")]);
                    ("environmentVariables", VUndefined) ])
         "context" = None).
Proof.
  apply (payload_by_token_type exampleEngine exampleTrace
           [("leak", VNumber 1)]
           {| CustomJwtFetcher.script := emptyClaims;
              CustomJwtFetcher.tokenType := LogtoJwtTokenKeyType.ClientCredentials;
              CustomJwtFetcher.token := VObject [("sub", VString "u1")];
              CustomJwtFetcher.context :=
                Some (VObject [("user", VObject [("id", VString "u1")])]);
              CustomJwtFetcher.environmentVariables := None |}).
  vm_compute. apply list_elem_of_here.
Defined.



(** C9: a script that binds [getCustomJwtClaims] to a number fails with the
    [TypeError] of the missing function, status 422; a script that does not
    bind the name at all fails with the [ReferenceError] of the evaluation,
    status 500, as any script that throws does. *)
Lemma missing_entry_point_is_a_reference_error :
  outcome (exampleRun numberEntryPointScript LogtoJwtTokenKeyType.AccessToken)
  = inl {| status := 422;
           body :=
             VObject
               [ ("message",
                  VString "The script does not have a function named `getCustomJwtClaims`");
                 ("stack",
                  VString (exampleTrace
                             "TypeError: The script does not have a function named `getCustomJwtClaims`")) ] |}
  ∧ outcome (exampleRun noEntryPointScript LogtoJwtTokenKeyType.AccessToken)
    = inl {| status := 500;
             body :=
               VObject
                 [ ("message", VString "getCustomJwtClaims is not defined");
                   ("stack",
                    VString (exampleTrace
                               "ReferenceError: getCustomJwtClaims is not defined")) ] |}.
Proof. split; reflexivity. Qed.

(** The script that tries to replace and delete [fetch] and to add a global
    leaves the object as it was, and two globals in its context. *)
Example meddling_leaves_globals :
  globalContextAfter (exampleRun meddlingScript LogtoJwtTokenKeyType.ClientCredentials)
  = globalContextWith [("leak", VNumber 1); ("getCustomJwtClaims", VFunction emptyClaims)].
Proof. reflexivity. Qed.

(** A script without an entry point, run after a script that has one, finds
    the function of the earlier script and returns its claims. *)
Example earlier_entry_point_is_found :
  outcome
    (runScriptInLocalVm exampleEngine exampleTrace
       (globalContextAfter (exampleRun emptyClaims LogtoJwtTokenKeyType.AccessToken))
       (exampleData noEntryPointScript LogtoJwtTokenKeyType.AccessToken))
  = inr [].
Proof. reflexivity. Qed.

(** A script that ends in a line comment fails for want of the function it
    declares. *)
Example commented_script_has_no_entry_point :
  outcome (exampleRun commentedScript LogtoJwtTokenKeyType.AccessToken)
  = inl {| status := 422;
           body :=
             VObject
               [ ("message",
                  VString "The script does not have a function named `getCustomJwtClaims`");
                 ("stack",
                  VString (exampleTrace
                             "TypeError: The script does not have a function named `getCustomJwtClaims`")) ] |}.
Proof. reflexivity. Qed.

(** A script that does not compile fails with the [SyntaxError] of the
    context, which is not one of the host: status 500. *)
Example script_that_does_not_compile :
  outcome (exampleRun "function (" LogtoJwtTokenKeyType.AccessToken)
  = inl {| status := 500;
           body :=
             VObject
               [ ("message", VString "Unexpected token");
                 ("stack", VString (exampleTrace "SyntaxError: Unexpected token")) ] |}.
Proof. reflexivity. Qed.

(** [String] of a number: in full below [1e21], with an exponent from there. *)
Example String_of_numbers :
  String_ (VNumber 42) = "42"
  ∧ String_ (VNumber (-7)) = "-7"
  ∧ String_ (VNumber (2 ^ 60)) = "1152921504606847000"
  ∧ String_ (VNumber (10 ^ 21)) = "1e+21"
  ∧ String_ (VNumber (2 ^ 70)) = "1.1805916207174113e+21".
Proof. repeat split; vm_compute; reflexivity. Qed.

(** The script of the specification's scenario. *)
Example greeting_claims :
  outcome (exampleRun greetingScript LogtoJwtTokenKeyType.AccessToken)
  = inr [("greeting", VString "hi u1")].
Proof. reflexivity. Qed.

(** A script whose body runs for ten seconds returns its claims as well. *)
Example slow_body_returns_claims :
  outcome (exampleRun slowBodyScript LogtoJwtTokenKeyType.AccessToken) = inr [].
Proof. reflexivity. Qed.

Set Warnings "-clear-no-such-hyp".

(** ** The merge of a deployment document as an assignment *)

Lemma get_NoDup_elem key v props :
  NoDup (keys props) → (key, v) ∈ props → get key props = Some v.
Proof.
  unfold keys. induction props as [|[k w] rest IH]; intros Hnd Hin.
  - by apply elem_of_nil in Hin.
  - simpl in Hnd. apply NoDup_cons in Hnd as [Hk Hnd]. simpl.
    apply elem_of_cons in Hin as [Heq | Hin].
    + injection Heq as <- <-. by rewrite String.eqb_refl.
    + destruct (String.eqb k key) eqn:E; [|by apply IH].
      apply String.eqb_eq in E. subst k. exfalso. apply Hk.
      by apply (list_elem_of_fmap_2 fst) in Hin.
Qed.

Lemma fold_set_names (f : string → value) (names : list string) acc :
  NoDup names →
  (∀ k, k ∈ names → k ∉ keys acc) →
  fold_left (fun destination k => set k (f k) destination) names acc
  = acc ++ map (fun k => (k, f k)) names.
Proof.
  revert acc. induction names as [|k rest IH]; intros acc Hnd Hfresh; cbn [fold_left map].
  - by rewrite app_nil_r.
  - apply NoDup_cons in Hnd as [Hk Hnd].
    rewrite set_fresh by (apply (Hfresh k); by left).
    rewrite IH; [by rewrite <- app_assoc | done |].
    intros k' Hk'. unfold keys. rewrite fmap_app. cbn.
    rewrite elem_of_app, list_elem_of_singleton.
    intros [Hin | ->]; [|done]. by apply (Hfresh k'); [right|].
Qed.

Lemma map_keys_values (g : string → value) (props : properties) :
  (∀ k v, (k, v) ∈ props → g k = v) →
  map (fun k => (k, g k)) (keys props) = props.
Proof.
  unfold keys. induction props as [|[k v] rest IH]; intros Hall; [done|].
  cbn. rewrite (Hall k v) by by left. f_equal.
  apply IH. intros k' v' Hin. apply Hall. by right.
Qed.

(** The first loop of [mergeObject] gives back a property list without
    repeated names whose values cloning leaves alone. *)
Lemma cloneTarget_id props :
  NoDup (keys props) →
  (∀ k v, (k, v) ∈ props → cloneUnlessOtherwiseSpecified v = v) →
  cloneTarget (VObject props) = props.
Proof.
  intros Hnd Hfixed. unfold cloneTarget.
  rewrite fold_set_names; [|done | intros; apply not_elem_of_nil].
  cbn [app]. apply map_keys_values. intros k v Hin. unfold member.
  rewrite (get_NoDup_elem k v props) by done. by apply (Hfixed k).
Qed.

Lemma document_parts props :
  isDeploymentDocument (VObject props) = true →
  NoDup (keys props)
  ∧ ∀ name entry, (name, entry) ∈ props →
      elemb name (map tokenKeyName [AccessToken; ClientCredentials]) = true
      ∧ isScriptsEntry entry = true.
Proof.
  simpl. intros [Hnd Hall]%andb_prop. split; [by apply bool_decide_eq_true in Hnd|].
  intros name entry Hin. rewrite forallb_forall in Hall.
  apply list_elem_of_In, Hall in Hin. by apply andb_prop in Hin.
Qed.

Lemma entry_parts slots :
  isScriptsEntry (VObject slots) = true →
  NoDup (keys slots)
  ∧ ∀ name w, (name, w) ∈ slots →
      elemb name ["production"; "test"] = true
      ∧ match w with VString _ | VUndefined => true | _ => false end = true.
Proof.
  simpl. intros [Hnd Hall]%andb_prop. split; [by apply bool_decide_eq_true in Hnd|].
  intros name w Hin. rewrite forallb_forall in Hall.
  apply list_elem_of_In, Hall in Hin. by apply andb_prop in Hin.
Qed.

Lemma cloneTarget_of_document props :
  isDeploymentDocument (VObject props) = true → cloneTarget (VObject props) = props.
Proof.
  intros Hdoc. destruct (document_parts props Hdoc) as [Hnd Hall].
  apply cloneTarget_id; [done|]. intros k v Hin.
  apply clone_scripts_entry. by apply (Hall k v).
Qed.

Lemma cloneTarget_of_entry slots :
  isScriptsEntry (VObject slots) = true → cloneTarget (VObject slots) = slots.
Proof.
  intros Hentry. destruct (entry_parts slots Hentry) as [Hnd Hall].
  apply cloneTarget_id; [done|]. intros k v Hin.
  apply clone_script. by apply (Hall k v).
Qed.

Lemma slotsOf_entry props key :
  isDeploymentDocument (VObject props) = true →
  isScriptsEntry (VObject (slotsOf props key)) = true
  ∧ (get (tokenKeyName key) props = None
     ∨ get (tokenKeyName key) props = Some (VObject (slotsOf props key))).
Proof.
  intros Hdoc. unfold slotsOf.
  destruct (get (tokenKeyName key) props) as [entry|] eqn:Hget; [|by split; [|left]].
  pose proof (document_entry (VObject props) _ _ Hdoc Hget) as Hentry.
  destruct entry; try done. split; [done | by right].
Qed.

(** Merging a one-key patch into a document, as an assignment. *)
Lemma deepmerge_patch_assign props key patch :
  isDeploymentDocument (VObject props) = true →
  deepmerge (VObject props) (VObject [(tokenKeyName key, VObject patch)])
  = VObject
      (set (tokenKeyName key)
         (match get (tokenKeyName key) props with
          | Some entry => deepmerge entry (VObject patch)
          | None => cloneUnlessOtherwiseSpecified (VObject patch)
          end) props).
Proof.
  intros Hdoc. cbn [deepmerge isArray fold_left].
  rewrite cloneTarget_of_document by done.
  unfold propertyIsUnsafe, propertyIsOnObject, ownEnumerable, hasOwn, member.
  rewrite tokenKeyName_own.
  by destruct (get (tokenKeyName key) props) as [entry|].
Qed.

Lemma deployPatch_assign props key useCase customizer :
  isDeploymentDocument (VObject props) = true →
  deepmerge (VObject props) (deployPatch key useCase customizer)
  = VObject (assignSlot props key useCase (VString (script customizer))).
Proof.
  intros Hdoc. unfold deployPatch, assignSlot.
  rewrite deepmerge_patch_assign by done. do 2 f_equal.
  destruct (slotsOf_entry props key Hdoc) as [Hentry [Hget | Hget]]; rewrite Hget.
  - unfold slotsOf. rewrite Hget. by destruct useCase.
  - cbn [deepmerge isArray fold_left]. rewrite cloneTarget_of_entry by done.
    rewrite own_name_safe by apply useCaseName_own.
    by rewrite andb_false_r.
Qed.

Lemma undeployPatch_assign props key :
  isDeploymentDocument (VObject props) = true →
  deepmerge (VObject props) (undeployPatch key) = VObject (blankSlots props key).
Proof.
  intros Hdoc. unfold undeployPatch, blankSlots.
  rewrite deepmerge_patch_assign by done. do 2 f_equal.
  destruct (slotsOf_entry props key Hdoc) as [Hentry [Hget | Hget]]; rewrite Hget.
  - unfold slotsOf. by rewrite Hget.
  - cbn [deepmerge isArray fold_left]. rewrite cloneTarget_of_entry by done.
    rewrite !own_name_safe by done. by rewrite !andb_false_r.
Qed.

(** *** Assignments on property lists *)

Lemma keys_set key v props :
  keys (set key v props)
  = if decide (key ∈ keys props) then keys props else keys props ++ [key].
Proof.
  unfold keys. induction props as [|[k w] rest IH]; cbn.
  - rewrite decide_False; [done | apply not_elem_of_nil].
  - destruct (String.eqb k key) eqn:E.
    + apply String.eqb_eq in E. subst k. cbn. rewrite decide_True; [done | by left].
    + apply String.eqb_neq in E. cbn. rewrite IH.
      destruct (decide (key ∈ rest.*1)) as [Hin | Hout].
      * rewrite decide_True; [done | by right].
      * rewrite decide_False; [done|]. rewrite not_elem_of_cons. by split.
Qed.

Lemma NoDup_keys_set key v props : NoDup (keys props) → NoDup (keys (set key v props)).
Proof.
  intros Hnd. rewrite keys_set. destruct (decide (key ∈ keys props)); [done|].
  apply NoDup_app. split; [done|]. split; [|apply NoDup_singleton].
  intros k Hk ->%list_elem_of_singleton. done.
Qed.

Lemma elem_of_set key v props entry :
  entry ∈ set key v props → entry = (key, v) ∨ entry ∈ props.
Proof.
  induction props as [|[k w] rest IH]; cbn.
  - intros ->%list_elem_of_singleton. by left.
  - destruct (String.eqb k key) eqn:E.
    + apply String.eqb_eq in E. subst k.
      intros [-> | Hin]%elem_of_cons; [by left | right; by right].
    + intros [-> | Hin]%elem_of_cons; [right; by left|].
      destruct (IH Hin) as [-> | ?]; [by left | right; by right].
Qed.

Lemma set_set key v w props : set key v (set key w props) = set key v props.
Proof.
  induction props as [|[k u] rest IH]; cbn.
  - by rewrite String.eqb_refl.
  - destruct (String.eqb k key) eqn:E; cbn; rewrite E; [done | by rewrite IH].
Qed.

Lemma get_set key key' v props :
  get key' (set key v props) = if decide (key = key') then Some v else get key' props.
Proof.
  destruct (decide (key = key')) as [<- | Hne];
    [apply get_set_eq | by apply get_set_ne].
Qed.

Lemma forallb_elem_of {A} (P : A → bool) (l : list A) :
  forallb P l = true ↔ ∀ x, x ∈ l → P x = true.
Proof.
  rewrite forallb_forall. split; intros H x Hin; apply H; by apply list_elem_of_In.
Qed.

Lemma isScript_cases (v : value) :
  match v with VString _ | VUndefined => true | _ => false end = true →
  v = VUndefined ∨ ∃ text, v = VString text.
Proof. destruct v; try done; eauto. Qed.

(** Assigning a script, or [undefined], to a slot of an entry gives an entry. *)
Lemma entry_set slots useCase v :
  isScriptsEntry (VObject slots) = true →
  match v with VString _ | VUndefined => true | _ => false end = true →
  isScriptsEntry (VObject (set (useCaseName useCase) v slots)) = true.
Proof.
  intros Hentry Hv. destruct (entry_parts slots Hentry) as [Hnd Hall].
  cbn [isScriptsEntry]. apply andb_true_intro. split.
  - apply bool_decide_eq_true. by apply NoDup_keys_set.
  - apply forallb_elem_of. intros [name w] Hin.
    apply elem_of_set in Hin as [[= -> ->] | Hin].
    + apply andb_true_intro. split; [by destruct useCase | done].
    + apply andb_true_intro. by apply (Hall name w).
Qed.

(** Replacing the entry of a token key by an entry gives a document. *)
Lemma document_set props key entry :
  isDeploymentDocument (VObject props) = true →
  isScriptsEntry entry = true →
  isDeploymentDocument (VObject (set (tokenKeyName key) entry props)) = true.
Proof.
  intros Hdoc Hentry. destruct (document_parts props Hdoc) as [Hnd Hall].
  cbn [isDeploymentDocument]. apply andb_true_intro. split.
  - apply bool_decide_eq_true. by apply NoDup_keys_set.
  - apply forallb_elem_of. intros [name w] Hin.
    apply elem_of_set in Hin as [[= -> ->] | Hin].
    + apply andb_true_intro. split; [by destruct key | done].
    + apply andb_true_intro. by apply (Hall name w).
Qed.

Lemma assignSlot_document props key useCase v :
  isDeploymentDocument (VObject props) = true →
  match v with VString _ | VUndefined => true | _ => false end = true →
  isDeploymentDocument (VObject (assignSlot props key useCase v)) = true.
Proof.
  intros Hdoc Hv. apply document_set; [done|].
  apply entry_set; [|done]. by apply slotsOf_entry.
Qed.

Lemma blankSlots_document props key :
  isDeploymentDocument (VObject props) = true →
  isDeploymentDocument (VObject (blankSlots props key)) = true.
Proof.
  intros Hdoc. apply document_set; [done|].
  apply (entry_set _ Test); [|done]. apply (entry_set _ Production); [|done].
  by apply slotsOf_entry.
Qed.

Lemma slotsOf_set props key entry :
  slotsOf (set (tokenKeyName key) (VObject entry) props) key = entry.
Proof. unfold slotsOf. by rewrite get_set_eq. Qed.

Lemma slotsOf_set_ne props key key' entry :
  key ≠ key' → slotsOf (set (tokenKeyName key) entry props) key' = slotsOf props key'.
Proof.
  intros Hne. unfold slotsOf. rewrite get_set_ne; [done|].
  intros Heq. by apply tokenKeyName_inj in Heq.
Qed.

(** Reading a slot of a document after an assignment. *)
Lemma slotOf_assignSlot props key useCase v key' useCase' :
  isDeploymentDocument (VObject props) = true →
  slotOf (VObject (assignSlot props key useCase v)) key' useCase'
  = if decide (key = key' ∧ useCase = useCase') then Some v
    else slotOf (VObject props) key' useCase'.
Proof.
  intros Hdoc. unfold slotOf, assignSlot. cbn [entryOf]. rewrite get_set.
  destruct (decide (tokenKeyName key = tokenKeyName key')) as [Heq | Hne].
  - apply tokenKeyName_inj in Heq. subst key'. rewrite get_set.
    destruct (decide (useCaseName useCase = useCaseName useCase')) as [Heq | Hne].
    + apply useCaseName_inj in Heq. subst useCase'. by rewrite decide_True.
    + rewrite decide_False by (intros [_ ->]; done).
      destruct (slotsOf_entry props key Hdoc) as [_ [Hget | Hget]]; rewrite Hget.
      * unfold slotsOf. by rewrite Hget.
      * done.
  - rewrite decide_False; [done|]. intros [-> _]. done.
Qed.

(** ** Further properties of deployment *)

(** X1: deploying a script pushes the deployment document of the store with
    the one slot assigned: the same keys in the same order, a new key or
    slot at the end, and nothing else changed. *)
Theorem deploy_pushes_the_assignment
    (getJwtCustomizerScripts : JwtCustomizers → value)
    (jwtCustomizers : JwtCustomizers) (key : LogtoJwtTokenKey)
    (customizer : JwtCustomizer) (useCase : UseCase) :
  isDeploymentDocument (getJwtCustomizerScripts jwtCustomizers) = true →
  deployJwtCustomizerScript true getJwtCustomizerScripts jwtCustomizers key
    customizer useCase
  = Sends (Put (VObject
                  (assignSlot (documentProps (getJwtCustomizerScripts jwtCustomizers))
                     key useCase (VString (script customizer))))).
Proof.
  intros Hdoc. unfold deployJwtCustomizerScript. cbn [negb].
  destruct (getJwtCustomizerScripts jwtCustomizers) as [| | | | | |props|]; try done.
  by rewrite deployPatch_assign.
Qed.

Lemma deploy_pushes_the_assignment_witness :
  deployJwtCustomizerScript true testOnly oneCustomizer AccessToken goldScript Production
  = Sends (Put (VObject
      [("jwt.accessToken",
        VObject [ ("test", VString "function getCustomJwtClaims(){return {role:'admin'}}");
                  ("production", VString "function getCustomJwtClaims(){return {tier:'gold'}}") ])])).
Proof.
  apply (deploy_pushes_the_assignment testOnly oneCustomizer AccessToken goldScript Production).
  reflexivity.
Defined.

(** X2: removing a configured key while another customizer remains pushes
    the deployment document of the store with both slots of the key set to
    [undefined], every other entry and the order of the keys as they were. *)
Theorem undeploy_pushes_the_blanking
    (getJwtCustomizerScripts : JwtCustomizers → value)
    (jwtCustomizers : JwtCustomizers) (key : LogtoJwtTokenKey) :
  is_Some (jwtCustomizers !! key) →
  size jwtCustomizers ≠ 1 →
  isDeploymentDocument (getJwtCustomizerScripts jwtCustomizers) = true →
  undeployJwtCustomizerScript true getJwtCustomizerScripts jwtCustomizers key
  = Sends (Put (VObject
                  (blankSlots (documentProps (getJwtCustomizerScripts jwtCustomizers)) key))).
Proof.
  intros [customizer Hkey] Hsize Hdoc. unfold undeployJwtCustomizerScript.
  cbn [negb]. rewrite Hkey. apply Nat.eqb_neq in Hsize. rewrite Hsize.
  destruct (getJwtCustomizerScripts jwtCustomizers) as [| | | | | |props|]; try done.
  by rewrite undeployPatch_assign.
Qed.

Lemma undeploy_pushes_the_blanking_witness :
  undeployJwtCustomizerScript true (fun _ => fullDocument) twoCustomizers AccessToken
  = Sends (Put (VObject
      [ ("jwt.accessToken", VObject [("production", VUndefined); ("test", VUndefined)]);
        ("jwt.clientCredentials",
         VObject [("production", VString "function getCustomJwtClaims(){return {b:1}}")]) ])).
Proof.
  apply (undeploy_pushes_the_blanking (fun _ => fullDocument) twoCustomizers AccessToken).
  - vm_compute. eauto.
  - vm_compute. lia.
  - reflexivity.
Defined.

(** X3: what either function pushes for a deployment document of the store
    is a deployment document again: token keys without repetition, each
    with an entry of [production] and [test] slots that hold a script or
    [undefined]. *)
Theorem pushed_document_is_well_formed
    (getJwtCustomizerScripts : JwtCustomizers → value)
    (jwtCustomizers : JwtCustomizers) (key : LogtoJwtTokenKey)
    (customizer : JwtCustomizer) (useCase : UseCase) (document : value) :
  isDeploymentDocument (getJwtCustomizerScripts jwtCustomizers) = true →
  deployJwtCustomizerScript true getJwtCustomizerScripts jwtCustomizers key
    customizer useCase = Sends (Put document)
  ∨ undeployJwtCustomizerScript true getJwtCustomizerScripts jwtCustomizers key
    = Sends (Put document) →
  isDeploymentDocument document = true.
Proof.
  intros Hdoc [Hdeploy | Hundeploy].
  - unfold deployJwtCustomizerScript in Hdeploy. cbn [negb] in Hdeploy.
    destruct (getJwtCustomizerScripts jwtCustomizers) as [| | | | | |props|]; try done.
    rewrite deployPatch_assign in Hdeploy by done. injection Hdeploy as <-.
    by apply assignSlot_document.
  - unfold undeployJwtCustomizerScript in Hundeploy. cbn [negb] in Hundeploy.
    destruct (jwtCustomizers !! key); [|done].
    destruct (Nat.eqb (size jwtCustomizers) 1); [done|].
    destruct (getJwtCustomizerScripts jwtCustomizers) as [| | | | | |props|]; try done.
    rewrite undeployPatch_assign in Hundeploy by done. injection Hundeploy as <-.
    by apply blankSlots_document.
Qed.

Lemma pushed_document_is_well_formed_witness :
  isDeploymentDocument
    (VObject
       [ ("jwt.accessToken", VObject [("production", VUndefined); ("test", VUndefined)]);
         ("jwt.clientCredentials",
          VObject [("production", VString "function getCustomJwtClaims(){return {b:1}}")]) ])
  = true.
Proof.
  apply (pushed_document_is_well_formed (fun _ => fullDocument) twoCustomizers AccessToken
           goldScript Production).
  - reflexivity.
  - right. reflexivity.
Defined.

(** X4: on a deployment document, a second merge for the same slot
    overwrites the first: the document is the one that the second script
    alone gives. Deploying a script twice changes nothing further. *)
Theorem later_deploy_overwrites (document : value) (key : LogtoJwtTokenKey)
    (useCase : UseCase) (earlier later : JwtCustomizer) :
  isDeploymentDocument document = true →
  deepmerge (deepmerge document (deployPatch key useCase earlier))
    (deployPatch key useCase later)
  = deepmerge document (deployPatch key useCase later).
Proof.
  intros Hdoc. destruct document as [| | | | | |props|]; try done.
  rewrite (deployPatch_assign props) by done.
  rewrite !deployPatch_assign by (done || by apply assignSlot_document).
  f_equal. unfold assignSlot. by rewrite slotsOf_set, !set_set.
Qed.

Lemma later_deploy_overwrites_witness :
  deepmerge (deepmerge fullDocument (deployPatch AccessToken Test adminScript))
    (deployPatch AccessToken Test goldScript)
  = deepmerge fullDocument (deployPatch AccessToken Test goldScript).
Proof.
  apply (later_deploy_overwrites fullDocument AccessToken Test adminScript goldScript).
  reflexivity.
Defined.

(** X5: on a deployment document, merges for two different slots give the
    same scripts in every slot whichever goes first. *)
Theorem deploys_to_different_slots_commute (document : value)
    (key1 key2 : LogtoJwtTokenKey) (useCase1 useCase2 : UseCase)
    (customizer1 customizer2 : JwtCustomizer)
    (key : LogtoJwtTokenKey) (useCase : UseCase) :
  isDeploymentDocument document = true →
  (key1, useCase1) ≠ (key2, useCase2) →
  slotOf (deepmerge (deepmerge document (deployPatch key1 useCase1 customizer1))
            (deployPatch key2 useCase2 customizer2)) key useCase
  = slotOf (deepmerge (deepmerge document (deployPatch key2 useCase2 customizer2))
              (deployPatch key1 useCase1 customizer1)) key useCase.
Proof.
  intros Hdoc Hne. destruct document as [| | | | | |props|]; try done.
  rewrite !(deployPatch_assign props) by done.
  rewrite !deployPatch_assign by by apply assignSlot_document.
  rewrite !slotOf_assignSlot by (done || by apply assignSlot_document).
  repeat case_decide; try done. destruct_and!. congruence.
Qed.

Lemma deploys_to_different_slots_commute_witness :
  slotOf (deepmerge (deepmerge (testOnly ∅) (deployPatch AccessToken Production goldScript))
            (deployPatch ClientCredentials Test adminScript)) ClientCredentials Test
  = slotOf (deepmerge (deepmerge (testOnly ∅) (deployPatch ClientCredentials Test adminScript))
              (deployPatch AccessToken Production goldScript)) ClientCredentials Test.
Proof.
  apply (deploys_to_different_slots_commute (testOnly ∅) AccessToken ClientCredentials
           Production Test goldScript adminScript ClientCredentials Test).
  - reflexivity.
  - discriminate.
Defined.

(** ** Further properties of the local run *)

Section LocalRunMore.

Variable v8 : string → ScriptSemantics.
Variable captureStackTrace : string → string.

(** X6: a run returns claims exactly when the script has a function to
    call, the call comes back within the deadline without throwing, and what
    it returns is a record; the claims are the properties of that record. *)
Theorem run_succeeds_iff_record (sandbox : Sandbox) (data : CustomJwtFetcher.t)
    (claims : properties) :
  outcome (runScriptInLocalVm v8 captureStackTrace sandbox data) = inr claims
  ↔ entryPointResult v8 captureStackTrace sandbox data = Some (VObject claims).
Proof.
  rewrite run_outcome. unfold entryPointResult, settle.
  destruct (completion _) as [fn|exception]; [|done].
  destruct (String.eqb (typeof fn) "function"); [|done].
  destruct (runInNewContext _ _ _) as [result|exception]; [|done].
  destruct result; cbn; split; intros; by simplify_eq.
Qed.

(** X7: the entry point is called exactly when the evaluation of the script
    gives a function; the evaluation runs without a timeout, on the text of
    the script followed by the name of the entry point, and the call runs
    with the timeout of 3000 ms. *)
Theorem entry_point_called_iff_function (sandbox : Sandbox) (data : CustomJwtFetcher.t) :
  let calls := vmCalls (runScriptInLocalVm v8 captureStackTrace sandbox data) in
  let evaluation :=
    (evaluateScript captureStackTrace (v8 (CustomJwtFetcher.script data)) sandbox).1 in
  (vmCode <$> calls) !! 0 = Some (CustomJwtFetcher.script data +:+ ";getCustomJwtClaims;")
  ∧ (vmTimeout <$> calls) !! 0 = Some None
  ∧ match completion evaluation with
    | Normal getCustomJwtClaims =>
        if String.eqb (typeof getCustomJwtClaims) "function"
        then (vmCode <$> calls) = [ CustomJwtFetcher.script data +:+ ";getCustomJwtClaims;";
                                    "(async () => getCustomJwtClaims(payload))();" ]
             ∧ (vmTimeout <$> calls) = [None; Some 3000%N]
        else length calls = 1
    | Abrupt _ => length calls = 1
    end.
Proof.
  unfold runScriptInLocalVm, tryBlock.
  destruct (evaluateScript _ _ _) as [evaluation sandbox'].
  change (runInNewContext captureStackTrace evaluation None)
    with (completion evaluation). cbn [fst].
  destruct (completion evaluation) as [fn|exception]; [|done].
  destruct (String.eqb (typeof fn) "function"); cbn [negb]; [|done].
  by destruct (runInNewContext _ _ _).
Qed.

(** X8: whatever the token type and whatever [data] carries, the payload
    has no other property than [token], [context] and
    [environmentVariables]: the text of the script and the token type are
    not handed to the entry point. *)
Theorem payload_has_only_picked_fields (data : CustomJwtFetcher.t) :
  keys (documentProps (payloadOf data)) ⊆ ["token"; "context"; "environmentVariables"]
  ∧ entryOf (payloadOf data) "script" = None
  ∧ entryOf (payloadOf data) "tokenType" = None
  ∧ entryOf (payloadOf data) "token" = Some (CustomJwtFetcher.token data).
Proof.
  rewrite payloadOf_fields.
  destruct data as [text [] token [c|] [e|]]; cbn; (split; [set_solver | done]).
Qed.

End LocalRunMore.

(** ** Properties of the user context *)

Lemma deduplicate_from (array seen : list string) :
  NoDup seen →
  let result :=
    fold_left (fun seen x => if decide (x ∈ seen) then seen else seen ++ [x]) array seen in
  NoDup result
  ∧ (∀ x, x ∈ result ↔ x ∈ seen ∨ x ∈ array)
  ∧ seen `prefix_of` result.
Proof.
  revert seen. induction array as [|x rest IH]; intros seen Hnd; cbn.
  - split; [done|]. split; [|done]. intros x. rewrite elem_of_nil. naive_solver.
  - destruct (decide (x ∈ seen)) as [Hin | Hout].
    + destruct (IH seen Hnd) as (Hnd' & Hmem & Hpre). split; [done|]. split; [|done].
      intros y. rewrite Hmem, elem_of_cons. naive_solver.
    + assert (Hnd1 : NoDup (seen ++ [x])).
      { apply NoDup_app. split; [done|]. split; [|apply NoDup_singleton].
        intros y Hy ->%list_elem_of_singleton. done. }
      destruct (IH _ Hnd1) as (Hnd' & Hmem & Hpre). split; [done|]. split.
      * intros y. rewrite Hmem, elem_of_app, list_elem_of_singleton, elem_of_cons.
        naive_solver.
      * etrans; [|exact Hpre]. by apply prefix_app_r.
Qed.

Section UserContextFacts.

Variable findUserSsoIdentitiesByUserId : string → list SsoIdentity.t.
Variable findUserRoles : string → list Role.t.
Variable findRolesScopesByRoleIds : list string → list RolesScope.t.
Variable findScopesByIds : list string → list Scope.t.
Variable attachResourceToScopes : list Scope.t → list Scope.t.
Variable getOrganizationsByUserId : string → list Organization.t.
Variable userInfoSelectFields : list string.

Abbreviation contextOf :=
  (userContextOf findUserSsoIdentitiesByUserId findUserRoles findRolesScopesByRoleIds
     findScopesByIds attachResourceToScopes getOrganizationsByUserId userInfoSelectFields).

(** X9: the MFA factors of the context are the types of the user's MFA
    verifications, each of them once. *)
Theorem mfa_factors_are_the_types_once (userId : string) (user : User.t) :
  NoDup (mfaVerificationFactors (contextOf userId user))
  ∧ ∀ factor,
      factor ∈ mfaVerificationFactors (contextOf userId user)
      ↔ factor ∈ User.mfaVerificationTypes user.
Proof.
  cbn [userContextOf mfaVerificationFactors]. unfold deduplicate.
  destruct (deduplicate_from (User.mfaVerificationTypes user) [] (NoDup_nil_2))
    as (Hnd & Hmem & _).
  split; [done|]. intros factor. rewrite Hmem, elem_of_nil. naive_solver.
Qed.

(** X10: the context lists the roles of the user in the order of the query,
    and under a role a scope exactly when the scope is among the scopes
    with resources and a row of the roles' scopes joins its id to the id of
    the role. *)
Theorem role_scopes_are_the_granted_ones (userId : string) (user : User.t) :
  let roleRows := findUserRoles userId in
  let rolesScopes := findRolesScopesByRoleIds (map Role.id roleRows) in
  let scopesWithResources :=
    attachResourceToScopes (findScopesByIds (map RolesScope.scopeId rolesScopes)) in
  map RoleContext.id (roles (contextOf userId user)) = map Role.id roleRows
  ∧ Forall
      (fun role =>
         ∀ scope,
           scope ∈ RoleContext.scopes role
           ↔ scope ∈ scopesWithResources
             ∧ ∃ row, row ∈ rolesScopes
                      ∧ RolesScope.roleId row = RoleContext.id role
                      ∧ RolesScope.scopeId row = Scope.id scope)
      (roles (contextOf userId user)).
Proof.
  cbn [userContextOf roles]. split.
  - rewrite map_map. by apply map_ext.
  - apply Forall_forall. intros role Hrole.
    apply list_elem_of_fmap in Hrole as (row & -> & _). intros scope.
    cbn [roleContext RoleContext.scopes RoleContext.id].
    rewrite list_elem_of_filter, list_elem_of_fmap.
    split.
    + intros [(r & Hid & Hr) Hscope]. split; [done|].
      apply list_elem_of_filter in Hr as [Hrole Hr]. by exists r.
    + intros [Hscope (r & Hr & Hrole & Hid)]. split; [|done].
      exists r. split; [done|]. by apply list_elem_of_filter.
Qed.

(** X11: the organization roles of the context are the pairs of an
    organization of the user and a role held there, with the id of the
    organization, the id and the name of the role; each of them names an
    organization that the context lists. *)
Theorem organization_roles_are_the_memberships (userId : string) (user : User.t)
    (entry : OrganizationRoleContext.t) :
  (entry ∈ organizationRoles (contextOf userId user)
   ↔ ∃ organization role,
       organization ∈ getOrganizationsByUserId userId
       ∧ role ∈ Organization.organizationRoles organization
       ∧ entry = {| OrganizationRoleContext.organizationId := Organization.id organization;
                    OrganizationRoleContext.roleId := OrganizationRole.id role;
                    OrganizationRoleContext.roleName := OrganizationRole.name role |})
  ∧ (entry ∈ organizationRoles (contextOf userId user) →
     OrganizationRoleContext.organizationId entry
     ∈ map OrganizationContext.id (organizations (contextOf userId user))).
Proof.
  cbn [userContextOf organizationRoles organizations]. unfold organizationRoleContexts.
  assert (Hiff : entry ∈ mbind
            (fun organization =>
               map (fun role =>
                      {| OrganizationRoleContext.organizationId := Organization.id organization;
                         OrganizationRoleContext.roleId := OrganizationRole.id role;
                         OrganizationRoleContext.roleName := OrganizationRole.name role |})
                 (Organization.organizationRoles organization))
            (getOrganizationsByUserId userId)
          ↔ ∃ organization role,
              organization ∈ getOrganizationsByUserId userId
              ∧ role ∈ Organization.organizationRoles organization
              ∧ entry = {| OrganizationRoleContext.organizationId := Organization.id organization;
                           OrganizationRoleContext.roleId := OrganizationRole.id role;
                           OrganizationRoleContext.roleName := OrganizationRole.name role |}).
  { rewrite list_elem_of_bind. split.
    - intros (organization & Hentry & Horg).
      apply list_elem_of_fmap in Hentry as (role & -> & Hrole). by exists organization, role.
    - intros (organization & role & Horg & Hrole & ->). exists organization.
      split; [|done]. apply list_elem_of_fmap. by exists role. }
  split; [done|].
  intros (organization & role & Horg & Hrole & ->)%Hiff. cbn.
  rewrite map_map. apply list_elem_of_fmap. by exists organization.
Qed.

End UserContextFacts.

(** ** Properties of the hook library *)

(** The filter of the trigger functions, spelled out. *)
Lemma subscribed_spec hookEvent hook :
  subscribed hookEvent hook = true
  ↔ Hook.enabled hook = true
    ∧ (if decide (Hook.events hook = []) then Hook.event hook = Some hookEvent
       else hookEvent ∈ Hook.events hook).
Proof.
  unfold subscribed. rewrite andb_true_iff.
  destruct (Hook.events hook) as [|first rest] eqn:Hevents; cbn [length Nat.ltb Nat.leb].
  - rewrite decide_True by done.
    destruct (Hook.event hook) as [event|]; [|naive_solver].
    rewrite String.eqb_eq. naive_solver.
  - rewrite decide_False by done. rewrite existsb_exists.
    split; intros [Henabled Hin]; (split; [done|]).
    + destruct Hin as (event & Hin & ->%String.eqb_eq). by apply list_elem_of_In.
    + exists hookEvent. split; [by apply list_elem_of_In | apply String.eqb_refl].
Qed.

Lemma sendWebhooks_ids hooks payload :
  map (fun request => get "hookId" (requestPayload request)) (sendWebhooks hooks payload)
  = map (fun hook => Some (VString (Hook.id hook))) hooks.
Proof.
  unfold sendWebhooks. rewrite map_map. apply map_ext. intros hook. cbn.
  apply get_set_eq.
Qed.

Lemma sendWebhooks_request hooks payload request :
  request ∈ sendWebhooks hooks payload →
  ∃ hook, hook ∈ hooks
          ∧ hookConfig request = Hook.config hook
          ∧ requestSigningKey request = Hook.signingKey hook
          ∧ get "hookId" (requestPayload request) = Some (VString (Hook.id hook))
          ∧ keys (requestPayload request) = keys (set "hookId" (VString "") payload)
          ∧ ∀ name, name ≠ "hookId" → get name (requestPayload request) = get name payload.
Proof.
  intros (hook & -> & Hin)%list_elem_of_fmap. exists hook. cbn.
  split; [done|]. split; [done|]. split; [done|]. split; [apply get_set_eq|].
  split.
  - rewrite !keys_set. by destruct (decide ("hookId" ∈ keys payload)).
  - intros name Hne. by apply get_set_ne.
Qed.

Section HookFacts.

Variable findAllHooks : list Hook.t.
Variable findUserById : string → option properties.
Variable findApplicationById : string → option properties.
Variable eventToHook : string → string.
Variable userInfoSelectFields : list string.
Variable createdAt : string.

Abbreviation interaction :=
  (triggerInteractionHooks findAllHooks findUserById findApplicationById eventToHook
     userInfoSelectFields createdAt).
Abbreviation management := (triggerManagementHooks findAllHooks createdAt).

(** X12: an interaction sends one request for each hook that is enabled and
    subscribed to the hook event, in the order of the hooks found: a hook
    with a list of events is subscribed by that list alone, a hook without
    one by its single event. Every request is for such a hook, with its
    config and its signing key. *)
Theorem interaction_requests_go_to_subscribers
    (interactionContext : InteractionHookContext.t) (userId : string)
    (userAgent : option string) :
  let hookEvent := eventToHook (InteractionHookContext.event interactionContext) in
  let sent := requests (interaction interactionContext userId userAgent) in
  map (fun request => get "hookId" (requestPayload request)) sent
  = map (fun hook => Some (VString (Hook.id hook)))
      (filter (fun hook => subscribed hookEvent hook = true) findAllHooks)
  ∧ Forall
      (fun request =>
         ∃ hook,
           hook ∈ findAllHooks
           ∧ Hook.enabled hook = true
           ∧ (if decide (Hook.events hook = []) then Hook.event hook = Some hookEvent
              else hookEvent ∈ Hook.events hook)
           ∧ hookConfig request = Hook.config hook
           ∧ requestSigningKey request = Hook.signingKey hook)
      sent.
Proof.
  intros hookEvent sent. subst sent. unfold triggerInteractionHooks. fold hookEvent.
  destruct (filter _ findAllHooks) as [|first rest] eqn:Hrows; cbn [length Nat.eqb requests].
  - split; [done | constructor].
  - rewrite <- Hrows. split; [apply sendWebhooks_ids|].
    apply Forall_forall. intros request Hin.
    apply sendWebhooks_request in Hin as (hook & Hhook & Hconfig & Hkey & _).
    apply list_elem_of_filter in Hhook as [Hsub Hhook].
    apply subscribed_spec in Hsub as [Henabled Hevents]. by exists hook.
Qed.

(** X13: the payloads of the requests of an interaction differ in [hookId]
    only: each has the id of its hook there, in place of the empty one, and
    has every other field of the payload of the interaction. *)
Theorem interaction_payloads_differ_in_hookId
    (interactionContext : InteractionHookContext.t) (userId : string)
    (userAgent : option string) :
  Forall
    (fun request =>
       keys (requestPayload request)
       = ["event"; "interactionEvent"; "createdAt"; "sessionId"; "userAgent"; "userId";
          "userIp"; "user"; "application"; "hookId"]
       ∧ (∃ hook, hook ∈ findAllHooks
                  ∧ get "hookId" (requestPayload request) = Some (VString (Hook.id hook)))
       ∧ ∀ name, name ≠ "hookId" →
           get name (requestPayload request)
           = get name (interactionPayload findUserById findApplicationById eventToHook
                         userInfoSelectFields createdAt interactionContext userId userAgent))
    (requests (interaction interactionContext userId userAgent)).
Proof.
  unfold triggerInteractionHooks.
  destruct (Nat.eqb _ 0); cbn [requests]; [constructor|].
  apply Forall_forall. intros request Hin.
  apply sendWebhooks_request in Hin as (hook & Hhook & _ & _ & Hid & Hkeys & Hrest).
  apply list_elem_of_filter in Hhook as [_ Hhook].
  split; [by rewrite Hkeys|]. split; [by exists hook | done].
Qed.

(** X14: an interaction looks the hooks up once; it looks the user up
    exactly when a hook is subscribed to the hook event, and the application
    at most then, and only for an id that is not empty. *)
Theorem interaction_lookups_need_a_subscriber
    (interactionContext : InteractionHookContext.t) (userId : string)
    (userAgent : option string) :
  let hookEvent := eventToHook (InteractionHookContext.event interactionContext) in
  let asked := queries (interaction interactionContext userId userAgent) in
  head asked = Some FindAllHooks
  ∧ (FindUserById userId ∈ asked
     ↔ ∃ hook, hook ∈ findAllHooks ∧ subscribed hookEvent hook = true)
  ∧ ∀ applicationId,
      FindApplicationById applicationId ∈ asked →
      applicationId ≠ ""
      ∧ InteractionHookContext.applicationId interactionContext = Some applicationId
      ∧ ∃ hook, hook ∈ findAllHooks ∧ subscribed hookEvent hook = true.
Proof.
  intros hookEvent asked. subst asked. unfold triggerInteractionHooks. fold hookEvent.
  destruct (filter _ findAllHooks) as [|first rest] eqn:Hrows; cbn [length Nat.eqb queries].
  - split; [done|]. split.
    + split; [set_solver|]. intros (hook & Hhook & Hsub).
      assert (Hin : hook ∈ filter (fun hook => subscribed hookEvent hook = true) findAllHooks)
        by by apply list_elem_of_filter.
      rewrite Hrows in Hin. by apply elem_of_nil in Hin.
    + set_solver.
  - assert (Hsome : ∃ hook, hook ∈ findAllHooks ∧ subscribed hookEvent hook = true).
    { exists first.
      assert (Hin : first ∈ filter (fun hook => subscribed hookEvent hook = true) findAllHooks)
        by (rewrite Hrows; by left).
      apply list_elem_of_filter in Hin. naive_solver. }
    split; [done|]. split; [split; [done | intros _; set_solver]|].
    intros applicationId Hin. unfold applicationQueries in Hin.
    destruct (InteractionHookContext.applicationId interactionContext) as [id|];
      [|set_solver].
    destruct (String.eqb id "") eqn:Hid; [set_solver|].
    apply String.eqb_neq in Hid.
    assert (applicationId = id) as -> by set_solver. done.
Qed.

End HookFacts.

(** Reading a field of [{ ...target, ...source }]. *)
Lemma get_spread target source name :
  NoDup (keys source) →
  get name (spread target source)
  = match get name source with
    | Some v => Some v
    | None => get name target
    end.
Proof.
  unfold spread, keys. revert target.
  induction source as [|[k v] rest IH]; intros target Hnd; [done|].
  cbn in Hnd. apply NoDup_cons in Hnd as [Hk Hnd]. cbn [fold_left get].
  rewrite IH by done. destruct (String.eqb k name) eqn:E.
  - apply String.eqb_eq in E. subst k.
    apply (get_None_keys name rest) in Hk. rewrite Hk. apply get_set_eq.
  - apply String.eqb_neq in E. destruct (get name rest); [done|]. by apply get_set_ne.
Qed.

Section ManagementFacts.

Variable findAllHooks : list Hook.t.
Variable createdAt : string.

(** X15: every request of the management hooks is for a context of the
    array and a hook subscribed to its event. Its payload has the id of that
    hook as [hookId], whatever the data and the metadata say; any other
    field is the one of the data, else the one of the metadata, else the
    event or the time of the context. *)
Theorem management_payload_precedence (metadata : properties)
    (contextArray : list ManagementHookContext.t) :
  NoDup (keys metadata) →
  Forall (fun context => NoDup (keys (ManagementHookContext.data context))) contextArray →
  Forall
    (fun request =>
       ∃ context hook,
         context ∈ contextArray
         ∧ hook ∈ findAllHooks
         ∧ subscribed (ManagementHookContext.event context) hook = true
         ∧ get "hookId" (requestPayload request) = Some (VString (Hook.id hook))
         ∧ ∀ name, name ≠ "hookId" →
             get name (requestPayload request)
             = match get name (ManagementHookContext.data context) with
               | Some v => Some v
               | None =>
                   match get name metadata with
                   | Some v => Some v
                   | None =>
                       get name [ ("event", VString (ManagementHookContext.event context));
                                  ("createdAt", VString createdAt) ]
                   end
               end)
    (requests (triggerManagementHooks findAllHooks createdAt metadata contextArray)).
Proof.
  intros Hmeta Hdata. unfold triggerManagementHooks.
  destruct (Nat.eqb (length contextArray) 0); cbn [requests]; [constructor|].
  apply Forall_forall. intros request Hin.
  apply list_elem_of_bind in Hin as (context & Hin & Hcontext).
  destruct (Nat.eqb _ 0); [by apply elem_of_nil in Hin|].
  apply sendWebhooks_request in Hin as (hook & Hhook & _ & _ & Hid & _ & Hrest).
  apply list_elem_of_filter in Hhook as [Hsub Hhook].
  exists context, hook. repeat (split; [done|]).
  intros name Hne. rewrite Hrest by done. unfold managementPayload.
  rewrite get_set_ne by done.
  rewrite Forall_forall in Hdata. by rewrite !get_spread by (done || by apply Hdata).
Qed.

End ManagementFacts.

Lemma management_payload_precedence_witness :
  Forall
    (fun request =>
       ∃ context hook,
         context ∈ [spoofingContext]
         ∧ hook ∈ exampleHooks
         ∧ subscribed (ManagementHookContext.event context) hook = true
         ∧ get "hookId" (requestPayload request) = Some (VString (Hook.id hook))
         ∧ ∀ name, name ≠ "hookId" →
             get name (requestPayload request)
             = match get name (ManagementHookContext.data context) with
               | Some v => Some v
               | None =>
                   match get name [("ip", VString "10.0.0.1")] with
                   | Some v => Some v
                   | None =>
                       get name [ ("event", VString (ManagementHookContext.event context));
                                  ("createdAt", VString "2024-01-01T00:00:00.000Z") ]
                   end
               end)
    (requests (triggerManagementHooks exampleHooks "2024-01-01T00:00:00.000Z"
                 [("ip", VString "10.0.0.1")] [spoofingContext])).
Proof.
  apply (management_payload_precedence exampleHooks "2024-01-01T00:00:00.000Z"
           [("ip", VString "10.0.0.1")] [spoofingContext]).
  - apply (bool_decide_unpack _). by vm_compute.
  - constructor; [|constructor]. apply (bool_decide_unpack _). by vm_compute.
Defined.

(** The requests of the example: the forged [hookId] is gone, the [event] of
    the data stands. *)
Example management_requests_of_spoofing_context :
  map requestPayload
    (requests (triggerManagementHooks exampleHooks "2024-01-01T00:00:00.000Z"
                 [("ip", VString "10.0.0.1")] [spoofingContext]))
  = [ [ ("event", VString "User.Deleted"); ("createdAt", VString "2024-01-01T00:00:00.000Z");
        ("ip", VString "10.0.0.1"); ("hookId", VString "hook-1") ];
      [ ("event", VString "User.Deleted"); ("createdAt", VString "2024-01-01T00:00:00.000Z");
        ("ip", VString "10.0.0.1"); ("hookId", VString "hook-2") ] ].
Proof. reflexivity. Qed.

Section TestHookFacts.

Variable findHookById : string → option Hook.t.
Variable generateHookTestPayload : string → string → properties.
Variable sendWebhookRequest : WebhookRequest → option SendError.
Variable firstRejection : list (option SendError) → option SendError.

Abbreviation runTestHook :=
  (testHook findHookById generateHookTestPayload sendWebhookRequest firstRejection).

(** X16: for a hook that exists, the test passes exactly when the request
    of every event goes through. When it fails, the error has status 422
    whatever went wrong: with the status and body of the response for an
    endpoint that answered with an error, and with the code of a failed
    send for anything else, which had been thrown for one of the events. *)
Theorem test_hook_fails_with_422 (hookId : string) (events : list string)
    (config : value) (hook : Hook.t) :
  rejectsWithOneOf firstRejection →
  findHookById hookId = Some hook →
  let sent := testRequests generateHookTestPayload hookId events config (Hook.signingKey hook) in
  (runTestHook hookId events config = TestPassed
   ↔ Forall (fun request => sendWebhookRequest request = None) sent)
  ∧ ∀ error,
      runTestHook hookId events config = TestFailed error →
      TestHookError.status error = 422%N
      ∧ ∃ request thrown,
          request ∈ sent
          ∧ sendWebhookRequest request = Some thrown
          ∧ error = testHookCatch thrown
          ∧ match thrown with
            | HTTPError responseStatus responseBody =>
                TestHookError.code error = "hook.endpoint_responded_with_error"
                ∧ TestHookError.data error = Some (responseStatus, responseBody)
            | OtherError _ =>
                TestHookError.code error = "hook.send_test_payload_failed"
                ∧ TestHookError.data error = None
            end.
Proof.
  intros Hrace Hfound sent. unfold testHook. rewrite Hfound. fold sent.
  specialize (Hrace (map sendWebhookRequest sent)).
  destruct (firstRejection (map sendWebhookRequest sent)) as [thrown|].
  - split.
    + split; [done|]. intros Hall. exfalso.
      apply list_elem_of_fmap in Hrace as (request & Hthrown & Hin).
      rewrite Forall_forall in Hall. rewrite (Hall request Hin) in Hthrown. done.
    + intros error [= <-].
      apply list_elem_of_fmap in Hrace as (request & Hthrown & Hin).
      split; [by destruct thrown|]. exists request, thrown.
      split; [done|]. split; [done|]. split; [done|]. by destruct thrown.
  - split; [|done]. split; [|done]. intros _.
    by apply Forall_fmap in Hrace.
Qed.

End TestHookFacts.

Lemma firstInOrder_rejects : rejectsWithOneOf firstInOrder.
Proof.
  intros results. unfold firstInOrder.
  destruct (filter (fun result => result ≠ None) results) as [|first rest] eqn:Hfilter; cbn.
  - apply Forall_forall. intros result Hin.
    destruct result as [error|]; [|done].
    assert (Hbad : Some error ∈ filter (fun result => result ≠ None) results)
      by by apply list_elem_of_filter.
    rewrite Hfilter in Hbad. by apply elem_of_nil in Hbad.
  - assert (Hin : first ∈ filter (fun result => result ≠ None) results)
      by (rewrite Hfilter; by left).
    apply list_elem_of_filter in Hin as [Hne Hin].
    destruct first as [error|]; [done|]. apply Forall_forall. intros result Hres.
    done.
Qed.

Lemma test_hook_fails_with_422_witness :
  let sent := testRequests (fun _ _ => []) "hook-1" ["PostSignIn"] VNull "key-1" in
  (testHook (fun _ => Some signInHook) (fun _ _ => [])
     (fun _ => Some (HTTPError 500 "oops")) firstInOrder "hook-1" ["PostSignIn"] VNull
   = TestPassed
   ↔ Forall (fun request => (fun _ => Some (HTTPError 500 "oops")) request = None) sent)
  ∧ ∀ error,
      testHook (fun _ => Some signInHook) (fun _ _ => [])
        (fun _ => Some (HTTPError 500 "oops")) firstInOrder "hook-1" ["PostSignIn"] VNull
      = TestFailed error →
      TestHookError.status error = 422%N
      ∧ ∃ request thrown,
          request ∈ sent
          ∧ (fun _ => Some (HTTPError 500 "oops")) request = Some thrown
          ∧ error = testHookCatch thrown
          ∧ match thrown with
            | HTTPError responseStatus responseBody =>
                TestHookError.code error = "hook.endpoint_responded_with_error"
                ∧ TestHookError.data error = Some (responseStatus, responseBody)
            | OtherError _ =>
                TestHookError.code error = "hook.send_test_payload_failed"
                ∧ TestHookError.data error = None
            end.
Proof.
  apply (test_hook_fails_with_422 (fun _ => Some signInHook) (fun _ _ => [])
           (fun _ => Some (HTTPError 500 "oops")) firstInOrder "hook-1" ["PostSignIn"]
           VNull signInHook).
  - apply firstInOrder_rejects.
  - reflexivity.
Defined.

(** ** Properties of the regular expressions *)

Lemma Matches_never s : ¬ Matches Never s.
Proof. inversion 1. Qed.

Lemma Matches_epsilon s : Matches Epsilon s ↔ s = [].
Proof. split; [by inversion 1 | intros ->; constructor]. Qed.

Lemma Matches_class member s :
  Matches (Class member) s ↔ ∃ c, s = [c] ∧ member c = true.
Proof.
  split; [inversion 1; by eexists | intros (c & -> & Hc); by constructor].
Qed.

Lemma Matches_seq first second s :
  Matches (Seq first second) s
  ↔ ∃ s1 s2, s = s1 ++ s2 ∧ Matches first s1 ∧ Matches second s2.
Proof.
  split; [inversion 1; by eexists _, _ | intros (s1 & s2 & -> & ? & ?); by constructor].
Qed.

Lemma Matches_alt one other s :
  Matches (Alt one other) s ↔ Matches one s ∨ Matches other s.
Proof.
  split; [inversion 1; by eauto|].
  intros [?|?]; [by apply MatchesOne | by apply MatchesOther].
Qed.

(** A string of a star that starts with [c]: a first round that starts
    with [c], then the star again. *)
Lemma Matches_star_cons body c s :
  Matches (Star body) (c :: s)
  → ∃ s1 s2, s = s1 ++ s2 ∧ Matches body (c :: s1) ∧ Matches (Star body) s2.
Proof.
  intros H. remember (Star body) as r eqn:Hr. remember (c :: s) as t eqn:Ht.
  revert s Ht. induction H as [| | | | | |body' s1 s2 H1 _ H2 IH2]; intros u Ht; try done.
  injection Hr as ->. destruct s1 as [|c' s1]; cbn in Ht.
  - by apply IH2.
  - injection Ht as -> <-. by exists s1, s2.
Qed.

Lemma nullable_spec r : nullable r = true ↔ Matches r [].
Proof.
  induction r as [| |member|first IH1 second IH2|one IH1 other IH2|body IH]; cbn.
  - split; [done | by intros ?%Matches_never].
  - split; [constructor | done].
  - split; [done|]. intros (c & ? & _)%Matches_class. done.
  - rewrite andb_true_iff, IH1, IH2, Matches_seq. split.
    + intros [? ?]. by exists [], [].
    + intros (s1 & s2 & Heq & ? & ?). symmetry in Heq.
      apply app_eq_nil in Heq as [-> ->]. done.
  - by rewrite orb_true_iff, IH1, IH2, Matches_alt.
  - split; [constructor | done].
Qed.

Lemma derivative_spec c r s : Matches (derivative c r) s ↔ Matches r (c :: s).
Proof.
  revert s.
  induction r as [| |member|first IH1 second IH2|one IH1 other IH2|body IH]; intros s; cbn.
  - split; by intros ?%Matches_never.
  - split; [by intros ?%Matches_never | by intros ?%Matches_epsilon].
  - rewrite Matches_class. destruct (member c) eqn:Hc.
    + rewrite Matches_epsilon. split; [intros ->; by exists c|].
      by intros (c' & [= -> ->] & _).
    + split; [by intros ?%Matches_never|]. intros (c' & [= -> ->] & ?). congruence.
  - rewrite Matches_alt, !Matches_seq. split.
    + intros [(s1 & s2 & -> & H1 & H2) | H].
      * apply IH1 in H1. by exists (c :: s1), s2.
      * destruct (nullable first) eqn:Hn; [|by apply Matches_never in H].
        apply nullable_spec in Hn. apply IH2 in H. by exists [], (c :: s).
    + intros (s1 & s2 & Heq & H1 & H2). destruct s1 as [|c' s1]; cbn in Heq.
      * subst s2. right. apply nullable_spec in H1. rewrite H1. by apply IH2.
      * injection Heq as <- ->. left. exists s1, s2. by rewrite IH1.
  - by rewrite !Matches_alt, IH1, IH2.
  - rewrite Matches_seq. split.
    + intros (s1 & s2 & -> & H1 & H2). apply IH in H1.
      by apply (MatchesMore body (c :: s1) s2).
    + intros (s1 & s2 & -> & H1 & H2)%Matches_star_cons. exists s1, s2. by rewrite IH.
Qed.

(** Matching by derivatives decides the strings of a regular expression. *)
Lemma matches_spec r s : matches r s = true ↔ Matches r s.
Proof.
  revert r. induction s as [|c s IH]; intros r; cbn.
  - apply nullable_spec.
  - by rewrite IH, derivative_spec.
Qed.

(** The strings of [[class]*] and of [[class]+]. *)
Lemma Matches_star_class member s :
  Matches (Star (Class member)) s ↔ Forall (fun c => member c = true) s.
Proof.
  split.
  - intros H. remember (Star (Class member)) as r eqn:Hr.
    induction H as [| | | | | |body s1 s2 H1 _ _ IH2]; try done.
    injection Hr as ->. apply Matches_class in H1 as (c & -> & Hc).
    constructor; [done | by apply IH2].
  - induction 1 as [|c s Hc _ IH]; [constructor|].
    apply (MatchesMore _ [c] s); [by constructor | done].
Qed.

Lemma Matches_plus_class member s :
  Matches (Plus (Class member)) s ↔ s ≠ [] ∧ Forall (fun c => member c = true) s.
Proof.
  unfold Plus. rewrite Matches_seq. split.
  - intros (s1 & s2 & -> & (c & -> & Hc)%Matches_class & Hrest%Matches_star_class).
    split; [done | by constructor].
  - intros [Hne Hall]. destruct Hall as [|c s Hc Hall]; [done|].
    exists [c], s. split; [done|]. split; [by constructor | by apply Matches_star_class].
Qed.

Lemma Matches_char text s : Matches (Char text) s ↔ s = [charCode text].
Proof.
  unfold Char. rewrite Matches_class. split.
  - intros (c & -> & ->%N.eqb_eq). done.
  - intros ->. eexists. split; [done | apply N.eqb_refl].
Qed.

Lemma Matches_times_class n member s :
  Matches (Times n (Class member)) s
  ↔ length s = n ∧ Forall (fun c => member c = true) s.
Proof.
  revert s. induction n as [|n IH]; intros s; cbn [Times].
  - rewrite Matches_epsilon. split; [by intros -> | intros [?%nil_length_inv _]; done].
  - rewrite Matches_seq. split.
    + intros (s1 & s2 & -> & (c & -> & Hc)%Matches_class & [<- Hall]%IH).
      split; [done | by constructor].
    + intros [Hlen Hall]. destruct Hall as [|c s Hc Hall]; [done|].
      exists [c], s. split; [done|]. split; [by constructor|].
      apply IH. split; [by injection Hlen | done].
Qed.

Lemma Matches_optional body s : Matches (Optional body) s ↔ Matches body s ∨ s = [].
Proof. unfold Optional. by rewrite Matches_alt, Matches_epsilon. Qed.

(** X17: [phoneRegEx] accepts exactly the strings of one or more of the
    digits 0 to 9. *)
Theorem phoneRegEx_accepts_digits (s : jsString) :
  test phoneRegEx s = true ↔ s ≠ [] ∧ Forall (fun c => digit c = true) s.
Proof. unfold test. rewrite matches_spec. apply Matches_plus_class. Qed.

(** X18: [usernameRegEx] accepts exactly the strings of a letter of A-Z or
    a-z or an underscore, followed by any number of letters, digits and
    underscores: no empty name and no name that starts with a digit. *)
Theorem usernameRegEx_accepts_identifiers (s : jsString) :
  test usernameRegEx s = true
  ↔ ∃ c rest, s = c :: rest
              ∧ usernameStart c = true
              ∧ Forall (fun c => word c = true) rest.
Proof.
  unfold test, usernameRegEx. rewrite matches_spec, Matches_seq. split.
  - intros (s1 & s2 & -> & (c & -> & Hc)%Matches_class & Hrest%Matches_star_class).
    by exists c, s2.
  - intros (c & rest & -> & Hc & Hrest). exists [c], rest.
    split; [done|]. split; [by constructor | by apply Matches_star_class].
Qed.

(** X19: [webRedirectUriProtocolRegEx] accepts [http:] and [https:] and
    nothing else. *)
Theorem webRedirectUriProtocolRegEx_accepts_http_and_https (s : jsString) :
  test webRedirectUriProtocolRegEx s = true
  ↔ s = codeUnits "http:" ∨ s = codeUnits "https:".
Proof.
  unfold test, webRedirectUriProtocolRegEx. rewrite matches_spec.
  repeat setoid_rewrite Matches_seq. setoid_rewrite Matches_optional.
  repeat setoid_rewrite Matches_char. split.
  - intros (? & ? & -> & -> & ? & ? & -> & -> & ? & ? & -> & -> & ? & ? & -> & ->
            & ? & ? & -> & [-> | ->] & ->); [by right | by left].
  - intros [-> | ->].
    + eexists _, _; split; [|split; [done|]]; [done|].
      eexists _, _; split; [|split; [done|]]; [done|].
      eexists _, _; split; [|split; [done|]]; [done|].
      eexists _, _; split; [|split; [done|]]; [done|].
      exists [], [58%N]. split; [done|]. split; [by right | done].
    + eexists _, _; split; [|split; [done|]]; [done|].
      eexists _, _; split; [|split; [done|]]; [done|].
      eexists _, _; split; [|split; [done|]]; [done|].
      eexists _, _; split; [|split; [done|]]; [done|].
      exists [115%N], [58%N]. split; [done|]. split; [by left | done].
Qed.

(** X20: [hexColorRegEx] accepts exactly a [#] followed by three or six
    hexadecimal digits, in either case. *)
Theorem hexColorRegEx_accepts_three_or_six_digits (s : jsString) :
  test hexColorRegEx s = true
  ↔ ∃ digits, s = charCode "#" :: digits
              ∧ Forall (fun c => hexDigit c = true) digits
              ∧ (length digits = 3 ∨ length digits = 6).
Proof.
  unfold test, hexColorRegEx. rewrite matches_spec. split.
  - intros (? & ? & -> & ->%Matches_char
            & (s1 & s2 & -> & [Hlen1 Hall1]%Matches_times_class
               & [[Hlen2 Hall2]%Matches_times_class | ->]%Matches_optional)%Matches_seq)%Matches_seq.
    + exists (s1 ++ s2). split; [done|]. split; [by apply Forall_app_2|].
      right. rewrite length_app. lia.
    + exists s1. rewrite app_nil_r. split; [done|]. split; [done | by left].
  - intros (digits & -> & Hall & Hlen).
    apply Matches_seq. exists [charCode "#"], digits. split; [done|].
    split; [by apply Matches_char|]. apply Matches_seq. destruct Hlen as [Hlen | Hlen].
    + exists digits, []. rewrite app_nil_r. split; [done|].
      split; [by apply Matches_times_class | apply Matches_optional; by right].
    + exists (take 3 digits), (drop 3 digits). rewrite take_drop. split; [done|].
      split; [|apply Matches_optional; left]; apply Matches_times_class.
      * split; [rewrite length_take; lia | by apply Forall_take].
      * split; [rewrite length_drop; lia | by apply Forall_drop].
Qed.

(** X21: [emailRegEx] accepts exactly the strings [a@b.c] in which [a],
    [b] and [c] are not empty and have no white space; they may have
    further [@] and [.] in them. *)
Theorem emailRegEx_accepts_local_at_domain (s : jsString) :
  test emailRegEx s = true
  ↔ ∃ a b c,
      s = a ++ charCode "@" :: b ++ charCode "." :: c
      ∧ a ≠ [] ∧ b ≠ [] ∧ c ≠ []
      ∧ Forall (fun code => whiteSpace code = false) (a ++ b ++ c).
Proof.
  unfold test, emailRegEx. rewrite matches_spec. split.
  - intros (a & ? & -> & [Ha1 Ha2]%Matches_plus_class
            & (? & ? & -> & ->%Matches_char
               & (b & ? & -> & [Hb1 Hb2]%Matches_plus_class
                  & (? & c & -> & ->%Matches_char
                     & [Hc1 Hc2]%Matches_plus_class)%Matches_seq)%Matches_seq)%Matches_seq)%Matches_seq.
    exists a, b, c. repeat (split; [done|]).
    rewrite !Forall_app. unfold notWhiteSpace in *.
    repeat split; (eapply Forall_impl; [eassumption|]); intros code Hcode;
      by apply negb_true_iff.
  - intros (a & b & c & -> & Ha & Hb & Hc & Hall).
    rewrite !Forall_app in Hall. destruct Hall as (Ha' & Hb' & Hc').
    assert (Hplus : ∀ t, t ≠ [] → Forall (fun code => whiteSpace code = false) t →
                         Matches (Plus (Class notWhiteSpace)) t).
    { intros t Ht Hall. apply Matches_plus_class. split; [done|].
      eapply Forall_impl; [exact Hall|]. intros code Hcode. unfold notWhiteSpace.
      by rewrite Hcode. }
    apply (MatchesSeq _ _ a); [by apply Hplus|].
    apply (MatchesSeq _ _ [charCode "@"]); [by apply Matches_char|].
    apply (MatchesSeq _ _ b); [by apply Hplus|].
    apply (MatchesSeq _ _ [charCode "."]); [by apply Matches_char | by apply Hplus].
Qed.

(** The strings of [webRedirectUriProtocolRegEx]. *)
Lemma web_protocols s :
  Matches webRedirectUriProtocolRegEx s → s = codeUnits "http:" ∨ s = codeUnits "https:".
Proof.
  unfold webRedirectUriProtocolRegEx.
  intros (? & ? & -> & ->%Matches_char
          & (? & ? & -> & ->%Matches_char
             & (? & ? & -> & ->%Matches_char
                & (? & ? & -> & ->%Matches_char
                   & (? & ? & -> & [->%Matches_char | ->]%Matches_optional
                      & ->%Matches_char)%Matches_seq)%Matches_seq)%Matches_seq)%Matches_seq)%Matches_seq;
    [by right | by left].
Qed.

(** Every string of a star has a property that the strings of its body
    have, when the property holds of each code unit. *)
Lemma Matches_star_Forall (P : N → Prop) body s :
  (∀ t, Matches body t → Forall P t) → Matches (Star body) s → Forall P s.
Proof.
  intros Hbody H. remember (Star body) as r eqn:Hr.
  induction H as [| | | | | |body' s1 s2 H1 _ _ IH2]; try done.
  injection Hr as ->. apply Forall_app_2; [by apply Hbody | by apply IH2].
Qed.

Lemma schemeChar_notWhiteSpace c : schemeChar c = true → notWhiteSpace c = true.
Proof.
  unfold schemeChar, notWhiteSpace, whiteSpace, digit, between.
  cbn [existsb map charCode Ascii.N_of_ascii].
  rewrite negb_true_iff. intros H.
  repeat (apply orb_true_iff in H as [H | H]);
    repeat match goal with
      | H : _ && _ = true |- _ => apply andb_true_iff in H as [? ?]
      | H : (_ <=? _)%N = true |- _ => apply N.leb_le in H
      | H : (_ =? _)%N = true |- _ => apply N.eqb_eq in H
      end;
    try done;
    repeat (apply orb_false_iff; split); try done; apply N.eqb_neq; cbn in *; lia.
Qed.

(** The strings of [mobileUriSchemeProtocolRegEx]: no white space, a dot,
    and the colon at the end. *)
Lemma mobile_scheme_shape s :
  Matches mobileUriSchemeProtocolRegEx s →
  ∃ scheme, s = scheme ++ [charCode ":"]
            ∧ Forall (fun c => notWhiteSpace c = true) scheme
            ∧ charCode "." ∈ scheme.
Proof.
  unfold mobileUriSchemeProtocolRegEx.
  intros (? & ? & -> & (c & -> & Hc)%Matches_class
          & (s1 & ? & -> & Hs1%Matches_star_class
             & (labels & ? & -> & Hlabels & ->%Matches_char)%Matches_seq)%Matches_seq)%Matches_seq.
  assert (Hlabel : ∀ t, Matches (Seq (Char ".") (Plus (Class schemeChar))) t →
            Forall (fun c => notWhiteSpace c = true) t ∧ ∃ rest, t = charCode "." :: rest).
  { intros t (? & rest & -> & ->%Matches_char & [_ Hrest]%Matches_plus_class)%Matches_seq.
    split; [|by exists rest]. constructor; [done|].
    eapply Forall_impl; [exact Hrest|]. apply schemeChar_notWhiteSpace. }
  unfold Plus in Hlabels.
  apply Matches_seq in Hlabels as (label & more & -> & Hfirst & Hmore).
  destruct (Hlabel _ Hfirst) as [Hclean (rest & ->)].
  exists ([c] ++ s1 ++ (charCode "." :: rest) ++ more).
  split; [by rewrite <- !app_assoc|]. split.
  - apply Forall_app_2.
    + constructor; [|done]. apply schemeChar_notWhiteSpace. unfold schemeChar.
      by rewrite Hc, orb_true_r.
    + apply Forall_app_2.
      * eapply Forall_impl; [exact Hs1|]. apply schemeChar_notWhiteSpace.
      * apply Forall_app_2; [done|].
        apply (Matches_star_Forall _ (Seq (Char ".") (Plus (Class schemeChar)))); [|done].
        intros t Ht. by apply Hlabel.
  - set_solver.
Qed.

(** X22: a string that [webRedirectUriProtocolRegEx] or
    [mobileUriSchemeProtocolRegEx] accepts is accepted by
    [looseNativeUriSchemeProtocolRegEx] as well, and no string is accepted
    by both of the first two. *)
Theorem uri_protocol_expressions_nest (s : jsString) :
  (test webRedirectUriProtocolRegEx s = true ∨ test mobileUriSchemeProtocolRegEx s = true →
   test looseNativeUriSchemeProtocolRegEx s = true)
  ∧ ¬ (test webRedirectUriProtocolRegEx s = true
       ∧ test mobileUriSchemeProtocolRegEx s = true).
Proof.
  unfold test. split.
  - intros [Hweb | Hmobile].
    + apply matches_spec, web_protocols in Hweb as [-> | ->]; reflexivity.
    + apply matches_spec, mobile_scheme_shape in Hmobile as (scheme & -> & Hclean & _).
      apply matches_spec. unfold looseNativeUriSchemeProtocolRegEx.
      apply MatchesSeq; [by apply Matches_star_class | by apply Matches_char].
  - intros [Hweb Hmobile].
    apply matches_spec, web_protocols in Hweb as [-> | ->]; discriminate Hmobile.
Qed.

Lemma uri_protocol_expressions_nest_witness :
  test looseNativeUriSchemeProtocolRegEx (codeUnits "io.logto.app:") = true.
Proof.
  apply (uri_protocol_expressions_nest (codeUnits "io.logto.app:")).
  right. reflexivity.
Defined.

Lemma digit_phoneInputChar c : digit c = true → phoneInputChar c = true.
Proof. unfold phoneInputChar. by intros ->. Qed.

(** X23: [phoneInputRegEx] accepts exactly an optional [+] followed by one
    or more digits, hyphens, spaces and round brackets; every phone number
    that [phoneRegEx] accepts is among them. *)
Theorem phoneInputRegEx_accepts_phone_numbers (s : jsString) :
  (test phoneInputRegEx s = true
   ↔ ∃ number, (s = number ∨ s = charCode "+" :: number)
               ∧ number ≠ []
               ∧ Forall (fun c => phoneInputChar c = true) number)
  ∧ (test phoneRegEx s = true → test phoneInputRegEx s = true).
Proof.
  assert (Hiff : Matches phoneInputRegEx s
            ↔ ∃ number, (s = number ∨ s = charCode "+" :: number)
                        ∧ number ≠ []
                        ∧ Forall (fun c => phoneInputChar c = true) number).
  { unfold phoneInputRegEx. split.
    - intros (? & number & -> & [->%Matches_char | ->]%Matches_optional
              & [Hne Hall]%Matches_plus_class)%Matches_seq;
        exists number; (split; [|done]); [by right | by left].
    - intros (number & Hs & Hne & Hall).
      assert (Hnumber : Matches (Plus (Class phoneInputChar)) number)
        by by apply Matches_plus_class.
      destruct Hs as [-> | ->].
      + apply (MatchesSeq _ _ [] number); [|done]. apply Matches_optional. by right.
      + apply (MatchesSeq _ _ [charCode "+"] number); [|done].
        apply Matches_optional. left. by apply Matches_char. }
  unfold test. rewrite !matches_spec. split; [done|].
  intros [Hne Hall]%Matches_plus_class. apply Hiff. exists s.
  split; [by left|]. split; [done|].
  eapply Forall_impl; [exact Hall|]. apply digit_phoneInputChar.
Qed.

Lemma phoneInputRegEx_accepts_phone_numbers_witness :
  test phoneInputRegEx (codeUnits "8613800000000") = true.
Proof.
  apply (phoneInputRegEx_accepts_phone_numbers (codeUnits "8613800000000")).
  reflexivity.
Defined.

(** X24: [dateRegex] accepts exactly the strings that start with four
    digits, a hyphen, two digits, a hyphen and two digits; anything may
    follow, and the digits are not checked to be a month or a day. *)
Theorem dateRegex_accepts_a_date_prefix (s : jsString) :
  testPrefix dateRegex s = true
  ↔ ∃ year month day rest,
      s = year ++ charCode "-" :: month ++ charCode "-" :: day ++ rest
      ∧ length year = 4 ∧ length month = 2 ∧ length day = 2
      ∧ Forall (fun c => digit c = true) (year ++ month ++ day).
Proof.
  unfold testPrefix, dateRegex. rewrite matches_spec. cbn [Times]. split.
  - intros (? & rest & ->
            & (year & ? & -> & [Hy1 Hy2]%(Matches_times_class 4)
               & (? & ? & ->
                  & (? & month & -> & ->%Matches_char
                     & [Hm1 Hm2]%(Matches_times_class 2))%Matches_seq
                  & (? & ? & ->
                     & (? & day & -> & ->%Matches_char
                        & [Hd1 Hd2]%(Matches_times_class 2))%Matches_seq
                     & ->%Matches_epsilon)%Matches_seq)%Matches_seq)%Matches_seq
            & _)%Matches_seq.
    exists year, month, day, rest. rewrite app_nil_r, <- ?app_assoc. cbn.
    rewrite <- ?app_assoc. split; [done|]. repeat (split; [done|]).
    by rewrite !Forall_app.
  - intros (year & month & day & rest & -> & Hy & Hm & Hd & Hall).
    rewrite !Forall_app in Hall. destruct Hall as (Hy' & Hm' & Hd').
    replace (year ++ charCode "-" :: month ++ charCode "-" :: day ++ rest)
      with ((year ++ ([charCode "-"] ++ month) ++ ([charCode "-"] ++ day) ++ []) ++ rest)
      by (rewrite app_nil_r, <- ?app_assoc; cbn; by rewrite <- ?app_assoc).
    apply MatchesSeq; [|by apply Matches_star_class, Forall_true].
    apply MatchesSeq; [by apply (Matches_times_class 4)|].
    apply MatchesSeq.
    + apply MatchesSeq; [by apply Matches_char | by apply (Matches_times_class 2)].
    + apply MatchesSeq; [|constructor].
      apply MatchesSeq; [by apply Matches_char | by apply (Matches_times_class 2)].
Qed.

(** X25: [looseNativeUriSchemeProtocolRegEx] accepts exactly the strings
    that end with a colon and have no white space before it; the colon
    alone is among them. *)
Theorem looseNativeUriSchemeProtocolRegEx_accepts_colon_ended (s : jsString) :
  test looseNativeUriSchemeProtocolRegEx s = true
  ↔ ∃ scheme, s = scheme ++ [charCode ":"]
              ∧ Forall (fun c => whiteSpace c = false) scheme.
Proof.
  unfold test, looseNativeUriSchemeProtocolRegEx. rewrite matches_spec, Matches_seq.
  split.
  - intros (scheme & ? & -> & Hscheme%Matches_star_class & ->%Matches_char).
    exists scheme. split; [done|]. eapply Forall_impl; [exact Hscheme|].
    intros c Hc. by apply negb_true_iff.
  - intros (scheme & -> & Hscheme). exists scheme, [charCode ":"].
    split; [done|]. split; [|by apply Matches_char]. apply Matches_star_class.
    eapply Forall_impl; [exact Hscheme|]. intros c Hc. unfold notWhiteSpace. by rewrite Hc.
Qed.

(** ** Properties of the error message of the input field *)

Lemma split_not_nil separator text : split separator text ≠ [].
Proof.
  destruct text as [|c rest]; cbn; [done|].
  destruct (N.eqb c separator); [done|]. by destruct (split separator rest).
Qed.

Lemma join_cons separator line lines :
  lines ≠ [] → join separator (line :: lines) = line ++ separator :: join separator lines.
Proof. by destruct lines. Qed.

Lemma join_split separator text : join separator (split separator text) = text.
Proof.
  induction text as [|c rest IH]; cbn [split]; [done|].
  destruct (N.eqb c separator) eqn:E.
  - apply N.eqb_eq in E. subst c.
    rewrite join_cons by apply split_not_nil. by rewrite IH.
  - pose proof (split_not_nil separator rest) as Hne.
    destruct (split separator rest) as [|line lines]; [done|].
    destruct lines as [|next lines]; cbn in *; by rewrite <- IH.
Qed.

Lemma split_lines separator text :
  Forall (fun line => separator ∉ line) (split separator text).
Proof.
  induction text as [|c rest IH]; cbn [split].
  - constructor; [apply not_elem_of_nil | constructor].
  - destruct (N.eqb c separator) eqn:E.
    + constructor; [apply not_elem_of_nil | done].
    + apply N.eqb_neq in E.
      destruct (split separator rest) as [|line lines];
        [constructor; [set_solver | constructor]|].
      apply Forall_cons in IH as [Hline Hlines]. constructor; [|done].
      rewrite not_elem_of_cons. by split.
Qed.

Lemma split_length separator text :
  length (split separator text)
  = S (length (filter (fun c => c = separator) text)).
Proof.
  induction text as [|c rest IH]; cbn [split]; [done|].
  rewrite filter_cons. destruct (N.eqb c separator) eqn:E.
  - apply N.eqb_eq in E. rewrite decide_True by done. cbn. by rewrite IH.
  - apply N.eqb_neq in E. rewrite decide_False by done.
    pose proof (split_not_nil separator rest) as Hne.
    destruct (split separator rest) as [|line lines]; [done|]. by rewrite <- IH.
Qed.

(** X26: for a message that is given, even the empty one, the field shows
    an error: the message as it is when it has no line break, and
    otherwise a list of its lines, at least two, none with a line break in
    it, which joined by line breaks give the message back. Without a
    message it shows none. *)
Theorem error_content_is_the_lines (message : jsString) :
  errorContent None = NoErrorMessage
  ∧ match errorContent (Some message) with
    | NoErrorMessage => False
    | MessageText text => text = message ∧ newline ∉ message
    | MessageList items =>
        join newline items = message
        ∧ (2 ≤ length items)%nat
        ∧ length items = S (length (filter (fun c => c = newline) message))
        ∧ newline ∈ message
        ∧ Forall (fun item => newline ∉ item) items
    end.
Proof.
  split; [done|]. unfold errorContent. cbn zeta.
  pose proof (join_split newline message) as Hjoin.
  pose proof (split_lines newline message) as Hlines.
  pose proof (split_length newline message) as Hlength.
  destruct (1 <? length (split newline message))%nat eqn:Hmany.
  - apply Nat.ltb_lt in Hmany. split; [done|]. split; [lia|]. split; [done|].
    split; [|done].
    destruct (filter (fun c => c = newline) message) as [|c rest] eqn:Hfilter;
      [cbn in Hlength; lia|].
    assert (Hin : c ∈ filter (fun c => c = newline) message) by (rewrite Hfilter; by left).
    apply list_elem_of_filter in Hin as [-> Hin]. done.
  - apply Nat.ltb_ge in Hmany.
    destruct (split newline message) as [|line [|next lines]]; cbn in *; [lia | | lia].
    subst line. split; [done|]. by apply Forall_cons in Hlines as [? _].
Qed.

(** ** The properties on the examples *)

Lemma run_succeeds_iff_record_witness :
  outcome (exampleRun greetingScript LogtoJwtTokenKeyType.AccessToken)
  = inr [("greeting", VString "hi u1")].
Proof.
  apply (run_succeeds_iff_record exampleEngine exampleTrace globalContext
           (exampleData greetingScript LogtoJwtTokenKeyType.AccessToken)).
  reflexivity.
Defined.

Lemma organization_roles_are_the_memberships_witness :
  "org-1" ∈ map OrganizationContext.id (organizations exampleContext).
Proof.
  apply (organization_roles_are_the_memberships (fun _ => []) (fun _ => []) (fun _ => [])
           (fun _ => []) (fun scopes => scopes) exampleOrganizations ["id"; "username"]
           "u1" exampleUser
           {| OrganizationRoleContext.organizationId := "org-1";
              OrganizationRoleContext.roleId := "or-2";
              OrganizationRoleContext.roleName := "member" |}).
  vm_compute. apply list_elem_of_further, list_elem_of_here.
Defined.

Lemma interaction_lookups_need_a_subscriber_witness :
  FindUserById "u1" ∈ queries exampleTriggered.
Proof.
  apply (interaction_lookups_need_a_subscriber exampleHooks (fun _ => None) (fun _ => None)
           exampleEventToHook ["id"; "username"] "2024-01-01T00:00:00.000Z"
           exampleInteraction "u1" None).
  exists legacyHook. split; [|reflexivity].
  apply list_elem_of_further, list_elem_of_here.
Defined.

(** The example interaction reaches the two enabled hooks subscribed to
    the sign-in, not the disabled one. *)
Example interaction_example_requests :
  map (fun request => get "hookId" (requestPayload request)) (requests exampleTriggered)
  = [Some (VString "hook-1"); Some (VString "hook-2")].
Proof. reflexivity. Qed.

(** The factors of the example user, in the order in which they first come. *)
Example mfa_factors_example :
  mfaVerificationFactors exampleContext = ["Totp"; "WebAuthn"; "BackupCode"].
Proof. reflexivity. Qed.

(** A date with a month and a day out of range, and a time after it. *)
Example dateRegex_example : testPrefix dateRegex (codeUnits "2024-13-99T10:00") = true.
Proof. reflexivity. Qed.

(** A message of two lines, and the empty message. *)
Example error_content_example :
  errorContent (Some (codeUnits "Too short" ++ newline :: codeUnits "No digit"))
  = MessageList [codeUnits "Too short"; codeUnits "No digit"]
  ∧ errorContent (Some []) = MessageText [].
Proof. split; reflexivity. Qed.

(** Reading a field of what [pick] keeps: a listed field is there, with
    [undefined] when the object does not have it. *)
Lemma get_pick object names name :
  get name (pick object names)
  = if decide (name ∈ names) then Some (default VUndefined (get name object))
    else None.
Proof.
  unfold pick.
  by rewrite (get_fold_set (fun k => default VUndefined (get k object))).
Qed.

(** Assigning fresh names one after the other appends them in order. *)
Lemma fold_set_fresh (f : string → value) (names : list string) acc :
  NoDup names →
  (∀ k, k ∈ names → k ∉ keys acc) →
  fold_left (fun destination k => set k (f k) destination) names acc
  = acc ++ map (fun k => (k, f k)) names.
Proof.
  revert acc. induction names as [|first rest IH]; intros acc Hnodup Hfresh.
  - by rewrite app_nil_r.
  - apply NoDup_cons in Hnodup as [Hfirst Hnodup]. cbn [fold_left map].
    rewrite set_fresh by (apply (Hfresh first); by left).
    rewrite IH; [by rewrite <- app_assoc | done |].
    intros k Hk. unfold keys. rewrite fmap_app. cbn.
    rewrite elem_of_app, list_elem_of_singleton. intros [Hin | ->]; [|done].
    by apply (Hfresh k); [right|].
Qed.

(** The names of what [pick] keeps are the listed names, in their order. *)
Lemma keys_pick object names : NoDup names → keys (pick object names) = names.
Proof.
  intros Hnodup. unfold pick.
  rewrite (fold_set_fresh (fun k => default VUndefined (get k object))); [|done|].
  - unfold keys. cbn. induction names as [|first rest IH]; [done|].
    apply NoDup_cons in Hnodup as [_ Hnodup]. cbn. by rewrite IH.
  - intros k _. apply not_elem_of_nil.
Qed.

(** X27: the user information of the context has the fields that
    [userInfoSelectFields] names, in that order and no other: a column of
    the user that is not selected is not in it, and a selected field has
    the value of the user's column, [undefined] for a column the row does
    not have. *)
Theorem user_info_has_selected_columns_only
    (findUserSsoIdentitiesByUserId : string → list SsoIdentity.t)
    (findUserRoles : string → list Role.t)
    (findRolesScopesByRoleIds : list string → list RolesScope.t)
    (findScopesByIds : list string → list Scope.t)
    (attachResourceToScopes : list Scope.t → list Scope.t)
    (getOrganizationsByUserId : string → list Organization.t)
    (userInfoSelectFields : list string) (userId : string) (user : User.t) :
  NoDup userInfoSelectFields →
  keys
    (userInfo
       (userContextOf findUserSsoIdentitiesByUserId findUserRoles findRolesScopesByRoleIds
          findScopesByIds attachResourceToScopes getOrganizationsByUserId
          userInfoSelectFields userId user))
  = userInfoSelectFields
  ∧ ∀ column,
      get column
        (userInfo
           (userContextOf findUserSsoIdentitiesByUserId findUserRoles
              findRolesScopesByRoleIds findScopesByIds attachResourceToScopes
              getOrganizationsByUserId userInfoSelectFields userId user))
      = if decide (column ∈ userInfoSelectFields)
        then Some (default VUndefined (get column (User.columns user)))
        else None.
Proof.
  intros Hnodup. cbn [userContextOf userInfo].
  split; [by apply keys_pick | intros column; apply get_pick].
Qed.

Lemma user_info_has_selected_columns_only_witness :
  keys (userInfo exampleContext) = ["id"; "username"]
  ∧ ∀ column,
      get column (userInfo exampleContext)
      = if decide (column ∈ ["id"; "username"])
        then Some (default VUndefined (get column (User.columns exampleUser)))
        else None.
Proof.
  apply (user_info_has_selected_columns_only (fun _ => []) (fun _ => []) (fun _ => [])
           (fun _ => []) (fun scopes => scopes) exampleOrganizations
           ["id"; "username"] "u1" exampleUser).
  apply (bool_decide_unpack _). by vm_compute.
Defined.

(** The example user: the name is kept, the password hash is not. *)
Example user_info_example :
  get "username" (userInfo exampleContext) = Some (VString "alice")
  ∧ get "passwordEncrypted" (userInfo exampleContext) = None.
Proof. split; reflexivity. Qed.
